(** * A shallow embedding of the chat relay (room server with JSON store)

    The development follows the WebSocket server source: the JSON store
    ([readDB]/[writeDB]), the two in-memory registries ([clients], a Map
    from socket to session record, and [rooms], a Map from room name to a
    Set of sockets), the send helpers ([safeSend], [broadcastToRoom],
    [broadcastToAll]) and the three socket callbacks (connection, message,
    close).

    Modelling conventions.
    - A JS string is a [string]; its characters stand for code units below
      256, so the white space removed by [trim] is TAB, LF, VT, FF, CR,
      SPACE and NBSP.
    - A payload field is a [jsval]: absent ([JUndefined]), [null], a boolean
      or a string.  Numbers, arrays and objects in payload fields are not
      modelled.
    - A JS [Map] or [Set] whose iteration order is observable (it decides the
      order of sends and of the lists put in replies) is an association list
      or a list kept in insertion order.  The parsed store, a plain JS object
      used as a dictionary, is a [gmap] of its own properties; a lookup of a
      name the store does not own falls through to [Object.prototype]
      ([inherited]).
    - Every handler returns the new server state together with the frames it
      puts on the wire, in order.  [safeSend] only writes to a socket whose
      [readyState] is OPEN; readiness is the parameter [isOpen].
    - A callback can end by an uncaught [TypeError].  The [_outcome]
      definitions return, with the state and the frames reached at that
      point, how the callback ended ([Returns] or [Throws]); the definitions
      without the suffix are their state and frames.
    - [Date.now()] is the argument [ts] of the message callback.
    - File-system failures of [readDB]/[writeDB] are not modelled.

    The repository's second program, a stand-alone broadcast server with
    neither rooms nor store, takes no part in the properties below. *)

From Stdlib Require Import ZArith List Ascii Bool Lia.
From Stdlib Require String.
From stdpp Require Import base option list gmap strings pretty.
Import ListNotations.

(** ** JS strings *)

Definition isWhiteSpace (c : ascii) : bool :=
  let n := nat_of_ascii c in
  ((9 <=? n)%nat && (n <=? 13)%nat) || (n =? 32)%nat || (n =? 160)%nat.

Fixpoint trimStart (s : string) : string :=
  match s with
  | EmptyString => EmptyString
  | String c s' => if isWhiteSpace c then trimStart s' else s
  end.

Fixpoint trimEnd (s : string) : string :=
  match s with
  | EmptyString => EmptyString
  | String c s' =>
      match trimEnd s' with
      | EmptyString => if isWhiteSpace c then EmptyString else String c EmptyString
      | t => String c t
      end
  end.

(** [String.prototype.trim] *)
Definition trim (s : string) : string := trimEnd (trimStart s).

(** Truthiness of a string: only the empty string is falsy. *)
Definition nonEmpty (s : string) : bool :=
  match s with EmptyString => false | String _ _ => true end.

(** ** JS values found in payload fields *)

Inductive jsval : Type :=
| JUndefined
| JNull
| JBool (b : bool)
| JStr (s : string).

(** [ToBoolean] *)
Definition truthy (v : jsval) : bool :=
  match v with
  | JUndefined | JNull => false
  | JBool b => b
  | JStr s => nonEmpty s
  end.

(** [a || b] *)
Definition js_or (a b : jsval) : jsval := if truthy a then a else b.

(** [String(v)] *)
Definition toString (v : jsval) : string :=
  match v with
  | JUndefined => "undefined"
  | JNull => "null"
  | JBool true => "true"
  | JBool false => "false"
  | JStr s => s
  end.

(** [v === "literal"] *)
Definition strictEqStr (v : jsval) (lit : string) : bool :=
  match v with
  | JStr s => bool_decide (s = lit)
  | _ => false
  end.

(** A nullable string field of a session record ([null] or a string). *)
Definition truthyOpt (o : option string) : bool :=
  match o with
  | Some s => nonEmpty s
  | None => false
  end.

(** ** JS Map and Set, in insertion order *)

Section JsMap.
Context {K V : Type} `{EqDecision K}.

Fixpoint Map_get (k : K) (m : list (K * V)) : option V :=
  match m with
  | [] => None
  | (k', v) :: m' => if decide (k = k') then Some v else Map_get k m'
  end.

Definition Map_has (k : K) (m : list (K * V)) : bool :=
  match Map_get k m with Some _ => true | None => false end.

(** [m.set(k, v)]: an existing key keeps its position, a new key goes last. *)
Fixpoint Map_set (k : K) (v : V) (m : list (K * V)) : list (K * V) :=
  match m with
  | [] => [(k, v)]
  | (k', v') :: m' =>
      if decide (k = k') then (k, v) :: m' else (k', v') :: Map_set k v m'
  end.

Fixpoint Map_delete (k : K) (m : list (K * V)) : list (K * V) :=
  match m with
  | [] => []
  | (k', v') :: m' =>
      if decide (k = k') then Map_delete k m' else (k', v') :: Map_delete k m'
  end.

Definition Map_keys (m : list (K * V)) : list K := map fst m.
Definition Map_values (m : list (K * V)) : list V := map snd m.
End JsMap.

Section JsSet.
Context {A : Type} `{EqDecision A}.

(** [s.add(x)] *)
Definition Set_add (x : A) (s : list A) : list A :=
  if decide (x ∈ s) then s else s ++ [x].

(** [s.delete(x)] *)
Definition Set_delete (x : A) (s : list A) : list A :=
  filter (λ y, y ≠ x) s.
End JsSet.

(** ** Data model *)

(** The socket object, used only as a key and as a send target. *)
Definition Ws := nat.

(** [{id, username, room, typing}], the value kept in [clients]. *)
Record Meta := mkMeta {
  m_id : nat;
  m_username : option string;
  m_room : option string;
  m_typing : bool
}.

Definition set_username (u : string) (m : Meta) : Meta :=
  mkMeta (m_id m) (Some u) (m_room m) (m_typing m).
Definition set_room (r : option string) (m : Meta) : Meta :=
  mkMeta (m_id m) (m_username m) r (m_typing m).
Definition set_typing (b : bool) (m : Meta) : Meta :=
  mkMeta (m_id m) (m_username m) (m_room m) b.

(** Stored room message [{username, text, ts}]. *)
Record RoomMsg := mkRoomMsg {
  rm_username : string;
  rm_text : string;
  rm_ts : Z
}.

(** Stored direct message [{from, to, text, ts}]. *)
Record DmMsg := mkDmMsg {
  dm_from : string;
  dm_to : string;
  dm_text : string;
  dm_ts : Z
}.

(** The JSON store [{rooms: {...}, dms: {...}}]. *)
Record DB := mkDB {
  db_rooms : gmap string (list RoomMsg);
  db_dms : gmap string (list DmMsg)
}.

(** One entry [{username, room}] of a presence list. *)
Record UserEntry := mkUserEntry {
  ue_username : string;
  ue_room : option string
}.

(** The parsed client frame; a field that is not present is [JUndefined]. *)
Record Data := mkData {
  d_type : jsval;
  d_username : jsval;
  d_room : jsval;
  d_text : jsval;
  d_to : jsval;
  d_isTyping : jsval
}.

(** Frames sent by the server.  [history_bare] is the frame
    [{type: "history", room}] that [JSON.stringify] writes when [messages]
    is a function or undefined, [history_object] the one with
    [messages: {}]. *)
Inductive Out : Type :=
| welcome (message : string)
| login_success (username : string) (users : list UserEntry)
    (rooms : list string) (room : string)
| history (room : jsval) (messages : list RoomMsg)
| history_bare (room : jsval)
| history_object (room : jsval)
| presence (users : list UserEntry)
| room_list (rooms : list string)
| notification (text : string)
| room_message (room : jsval) (username : string) (text : string) (ts : Z)
| dm_message (from to text : string) (ts : Z)
| typing (room : option string) (username : string) (isTyping : bool)
| error (message : string).

Definition Send : Type := Ws * Out.

(** The process state: the two registries, the id counter and the file. *)
Record Server := mkServer {
  clients : list (Ws * Meta);
  rooms : list (string * list Ws);
  nextUserId : nat;
  file : DB
}.

Definition emptyDB : DB := mkDB ∅ ∅.

(** State at start-up, with [messages.json] holding [db0]. *)
Definition boot (db0 : DB) : Server := mkServer [] [] 1 db0.

(** ** The store *)

Definition readDB (st : Server) : DB := file st.

Definition writeDB (db : DB) (st : Server) : Server :=
  mkServer (clients st) (rooms st) (nextUserId st) db.

(** The function-valued properties of [Object.prototype]. *)
Definition prototypeFunctions : list string :=
  ["constructor"; "__defineGetter__"; "__defineSetter__"; "hasOwnProperty";
   "__lookupGetter__"; "__lookupSetter__"; "isPrototypeOf";
   "propertyIsEnumerable"; "toString"; "valueOf"; "toLocaleString"].

(** What a plain object inherits: a function, or, through the [__proto__]
    accessor, the prototype object itself. *)
Inductive ProtoValue : Type :=
| protoFunction
| protoObject.

(** The value a plain object yields for a name it does not own. *)
Definition inherited (name : string) : option ProtoValue :=
  if bool_decide (name = "__proto__") then Some protoObject
  else if bool_decide (name ∈ prototypeFunctions) then Some protoFunction
  else None.

(** The result of [db.rooms[room]]: the own log, an inherited value (truthy,
    not an array), or [undefined]. *)
Inductive Stored : Type :=
| stored (log : list RoomMsg)
| fromPrototype (v : ProtoValue)
| undefined.

(** [db.rooms[room]] *)
Definition roomsGet (room : string) (db : DB) : Stored :=
  match db_rooms db !! room with
  | Some log => stored log
  | None =>
      match inherited room with
      | Some v => fromPrototype v
      | None => undefined
      end
  end.

(** [v || []] *)
Definition orEmpty (v : Stored) : Stored :=
  match v with
  | undefined => stored []
  | _ => v
  end.

(** [db.rooms[room]] is an inherited value: the store has no log of its own
    under a name that [Object.prototype] defines. *)
Definition readsPrototype (room : string) (db : DB) : bool :=
  match roomsGet room db with
  | fromPrototype _ => true
  | _ => false
  end.

(** [if (!db.rooms[room]) db.rooms[room] = []]: an inherited value is
    truthy, so the assignment is skipped for it. *)
Definition ensureRoomLog (room : string) (db : DB) : DB :=
  match roomsGet room db with
  | undefined => mkDB (<[room := []]> (db_rooms db)) (db_dms db)
  | _ => db
  end.

(** The log the store owns under [room], empty when it owns none.  This is
    [db.rooms[room] || []] for every name that does not read an inherited
    value; [orEmpty (roomsGet room db)] is the expression in general. *)
Definition roomLog (room : string) (db : DB) : list RoomMsg :=
  default [] (db_rooms db !! room).

(** [db.dms[key] || []].  The keys used are pair keys, which contain ["|"]
    and are therefore never names of [Object.prototype]. *)
Definition dmLog (key : string) (db : DB) : list DmMsg :=
  default [] (db_dms db !! key).

(** The [history] frame as [JSON.stringify] writes it for a value of
    [messages]. *)
Definition historyFrame (room : jsval) (messages : Stored) : Out :=
  match messages with
  | stored log => history room log
  | fromPrototype protoObject => history_object room
  | fromPrototype protoFunction => history_bare room
  | undefined => history_bare room
  end.

(** How a callback ends. *)
Inductive Completion : Type :=
| Returns
| Throws.

(** [log.push(m); if (log.length > 2000) log.shift()] *)
Definition pushCapped {A : Type} (m : A) (log : list A) : list A :=
  let log' := log ++ [m] in
  if (2000 <? length log')%nat then tail log' else log'.

(** [arr.slice(-n)] *)
Definition sliceLast {A : Type} (n : nat) (arr : list A) : list A :=
  drop (length arr - n) arr.

(** [[a, b].sort().join("|")]: the default sort compares strings by code
    units and is stable. *)
Definition sortPair (a b : string) : string * string :=
  match String.compare b a with
  | Lt => (b, a)
  | _ => (a, b)
  end.

Definition dmKey (a b : string) : string :=
  let p := sortPair a b in fst p +:+ "|" +:+ snd p.

(** ** Registry updates *)

(** Assignment to a field of [meta], the object stored in [clients]. *)
Definition putMeta (ws : Ws) (m : Meta) (st : Server) : Server :=
  mkServer (Map_set ws m (clients st)) (rooms st) (nextUserId st) (file st).

Definition putRooms (rs : list (string * list Ws)) (st : Server) : Server :=
  mkServer (clients st) rs (nextUserId st) (file st).

(** [if (!rooms.has(room)) rooms.set(room, new Set())] *)
Definition ensureRoom (room : string) (rs : list (string * list Ws))
  : list (string * list Ws) :=
  if Map_has room rs then rs else Map_set room [] rs.

(** [rooms.get(room).add(ws)], for a room that is in the Map. *)
Definition roomAdd (room : string) (ws : Ws) (rs : list (string * list Ws))
  : list (string * list Ws) :=
  match Map_get room rs with
  | Some s => Map_set room (Set_add ws s) rs
  | None => rs
  end.

(** [rooms.get(room).delete(ws)], for a room that is in the Map. *)
Definition roomDelete (room : string) (ws : Ws) (rs : list (string * list Ws))
  : list (string * list Ws) :=
  match Map_get room rs with
  | Some s => Map_set room (Set_delete ws s) rs
  | None => rs
  end.

(** [Array.from(clients.values()).filter(u => u.username)
      .map(u => ({username: u.username, room: u.room}))] *)
Definition userEntry (m : Meta) : option UserEntry :=
  match m_username m with
  | Some u => if nonEmpty u then Some (mkUserEntry u (m_room m)) else None
  | None => None
  end.

Definition usersList (cs : list (Ws * Meta)) : list UserEntry :=
  omap userEntry (Map_values cs).

(** The first socket whose session carries the name [to]. *)
Fixpoint findByName (to : string) (cs : list (Ws * Meta)) : option Ws :=
  match cs with
  | [] => None
  | (w, m) :: cs' =>
      if decide (m_username m = Some to) then Some w else findByName to cs'
  end.

Definition defaultRoom : string := "lobby".

(** ** Sending *)

Section Router.
Variable isOpen : Ws → bool.

Definition safeSend (ws : Ws) (obj : Out) : list Send :=
  if isOpen ws then [(ws, obj)] else [].

Definition sendEach (targets : list Ws) (obj : Out) : list Send :=
  flat_map (λ ws, safeSend ws obj) targets.

(** [roomName] is whatever the caller passes to [rooms.get]: only a string
    can be a key of [rooms]. *)
Definition broadcastToRoom (st : Server) (roomName : jsval) (obj : Out)
  : list Send :=
  match roomName with
  | JStr r =>
      match Map_get r (rooms st) with
      | Some s => sendEach s obj
      | None => []
      end
  | _ => []
  end.

Definition broadcastToAll (st : Server) (obj : Out) : list Send :=
  sendEach (Map_keys (clients st)) obj.

Definition ofRoom (r : option string) : jsval :=
  match r with Some s => JStr s | None => JNull end.

(** ** The message callback, one definition per branch *)

(** The store is read under [meta.room], which is ["lobby"] here: a name
    that [Object.prototype] does not define, so [db2.rooms[meta.room] || []]
    is the own log or the empty one. *)
Definition on_login (st : Server) (ws : Ws) (meta : Meta) (data : Data)
  : Server * list Send :=
  let username :=
    trim (toString (js_or (d_username data)
                          (JStr ("User" +:+ pretty (m_id meta))))) in
  let meta1 := set_username username meta in
  let rs := roomAdd defaultRoom ws (ensureRoom defaultRoom (rooms st)) in
  let meta2 := set_room (Some defaultRoom) meta1 in
  let st1 := putRooms rs (putMeta ws meta2 st) in
  let st2 := writeDB (ensureRoomLog defaultRoom (readDB st1)) st1 in
  let users := usersList (clients st2) in
  let roomsList := Map_keys (rooms st2) in
  let roomMsgs := roomLog defaultRoom (readDB st2) in
  (st2,
   safeSend ws (login_success username users roomsList defaultRoom)
   ++ safeSend ws (history (JStr defaultRoom) (sliceLast 200 roomMsgs))
   ++ broadcastToAll st2 (presence users)
   ++ broadcastToRoom st2 (JStr defaultRoom)
        (notification (username +:+ " joined " +:+ defaultRoom))).

Definition on_create_room (st : Server) (data : Data) : Server * list Send :=
  let room := trim (toString (d_room data)) in
  if negb (nonEmpty room) then (st, [])
  else
    let st1 := putRooms (ensureRoom room (rooms st)) st in
    let st2 := writeDB (ensureRoomLog room (readDB st1)) st1 in
    (st2, broadcastToAll st2 (room_list (Map_keys (rooms st2)))).

(** The "leave previous room" step shared by [join_room] and [leave_room]:
    [if (r && rooms.has(r)) { rooms.get(r).delete(ws); broadcastToRoom(r, ..) }] *)
Definition leaveCurrent (st : Server) (ws : Ws) (meta : Meta) (name : string)
  : Server * list Send :=
  match m_room meta with
  | Some r =>
      if nonEmpty r && Map_has r (rooms st) then
        let st1 := putRooms (roomDelete r ws (rooms st)) st in
        (st1, broadcastToRoom st1 (JStr r)
                (notification (name +:+ " left " +:+ r)))
      else (st, [])
  | None => (st, [])
  end.

(** The [join_room] branch.  [db2.rooms[room].slice(-200)] throws when the
    value read is not an array; by then the registries and the file have
    been updated and the "left" notification has been sent. *)
Definition on_join_room_outcome (st : Server) (ws : Ws) (meta : Meta)
    (name : string) (data : Data) : Server * list Send * Completion :=
  let room := trim (toString (d_room data)) in
  if negb (nonEmpty room) then (st, [], Returns)
  else
    let '(st1, out1) := leaveCurrent st ws meta name in
    let rs := roomAdd room ws (ensureRoom room (rooms st1)) in
    let st2 := putRooms rs (putMeta ws (set_room (Some room) meta) st1) in
    let st3 := writeDB (ensureRoomLog room (readDB st2)) st2 in
    match roomsGet room (readDB st3) with
    | stored log =>
        (st3,
         out1
         ++ safeSend ws (history (JStr room) (sliceLast 200 log))
         ++ broadcastToRoom st3 (JStr room)
              (notification (name +:+ " joined " +:+ room))
         ++ broadcastToAll st3 (room_list (Map_keys (rooms st3))),
         Returns)
    | _ => (st3, out1, Throws)
    end.

Definition on_join_room (st : Server) (ws : Ws) (meta : Meta) (name : string)
    (data : Data) : Server * list Send :=
  (on_join_room_outcome st ws meta name data).1.

Definition on_leave_room (st : Server) (ws : Ws) (meta : Meta) (name : string)
  : Server * list Send :=
  let '(st1, out1) := leaveCurrent st ws meta name in
  let st2 := putMeta ws (set_room None meta) st1 in
  (st2, out1 ++ broadcastToAll st2 (presence (usersList (clients st2)))).

(** The [message] branch.  [db.rooms[room] = db.rooms[room] || []] keeps an
    inherited value, and [.push] on it throws before [writeDB] and before
    any send. *)
Definition on_message_outcome (st : Server) (ws : Ws) (meta : Meta)
    (name : string) (data : Data) (ts : Z)
  : Server * list Send * Completion :=
  let room := js_or (d_room data) (ofRoom (m_room meta)) in
  let text := toString (js_or (d_text data) (JStr "")) in
  if negb (truthy room)
  then (st, safeSend ws (error "Not in a room"), Returns)
  else
    let db := readDB st in
    let key := toString room in
    match orEmpty (roomsGet key db) with
    | stored old =>
        let log := pushCapped (mkRoomMsg name text ts) old in
        let st1 :=
          writeDB (mkDB (<[key := log]> (db_rooms db)) (db_dms db)) st in
        (st1, broadcastToRoom st1 room (room_message room name text ts),
         Returns)
    | _ => (st, [], Throws)
    end.

Definition on_message (st : Server) (ws : Ws) (meta : Meta) (name : string)
    (data : Data) (ts : Z) : Server * list Send :=
  (on_message_outcome st ws meta name data ts).1.

Definition on_dm (st : Server) (ws : Ws) (name : string) (data : Data)
    (ts : Z) : Server * list Send :=
  let to := trim (toString (js_or (d_to data) (JStr ""))) in
  let text := toString (js_or (d_text data) (JStr "")) in
  if negb (nonEmpty to) then (st, [])
  else
    let targetWs := findByName to (clients st) in
    let db := readDB st in
    let key := dmKey name to in
    let log := pushCapped (mkDmMsg name to text ts) (dmLog key db) in
    let st1 := writeDB (mkDB (db_rooms db) (<[key := log]> (db_dms db))) st in
    (st1,
     match targetWs with
     | Some t => safeSend t (dm_message name to text ts)
     | None => []
     end
     ++ safeSend ws (dm_message name to text ts)).

Definition on_typing (st : Server) (ws : Ws) (meta : Meta) (name : string)
    (data : Data) : Server * list Send :=
  let isTyping := truthy (d_isTyping data) in
  let st1 := putMeta ws (set_typing isTyping meta) st in
  (st1, broadcastToRoom st1 (ofRoom (m_room meta))
          (typing (m_room meta) name isTyping)).

Definition on_history (st : Server) (ws : Ws) (data : Data)
  : Server * list Send :=
  let room := d_room data in
  let db := readDB st in
  if truthy room then
    (st, safeSend ws
           (historyFrame room (orEmpty (roomsGet (toString room) db))))
  else (st, safeSend ws (error "room required")).

(** [ws.on("message", raw => ...)] after [JSON.parse] has given a value
    other than [null]. *)
Definition onMessage_outcome (st : Server) (ws : Ws) (data : Data) (ts : Z)
  : Server * list Send * Completion :=
  match Map_get ws (clients st) with
  | None => (st, [], Returns)
  | Some meta =>
      if strictEqStr (d_type data) "login"
      then (on_login st ws meta data, Returns)
      else
        match m_username meta with
        | Some name =>
            if negb (nonEmpty name)
            then (st, safeSend ws (error "Please login first."), Returns)
            else if strictEqStr (d_type data) "create_room"
            then (on_create_room st data, Returns)
            else if strictEqStr (d_type data) "join_room"
            then on_join_room_outcome st ws meta name data
            else if strictEqStr (d_type data) "leave_room"
            then (on_leave_room st ws meta name, Returns)
            else if strictEqStr (d_type data) "message"
            then on_message_outcome st ws meta name data ts
            else if strictEqStr (d_type data) "dm"
            then (on_dm st ws name data ts, Returns)
            else if strictEqStr (d_type data) "typing"
            then (on_typing st ws meta name data, Returns)
            else if strictEqStr (d_type data) "history"
            then (on_history st ws data, Returns)
            else (st, [], Returns)
        | None => (st, safeSend ws (error "Please login first."), Returns)
        end
  end.

Definition onMessage (st : Server) (ws : Ws) (data : Data) (ts : Z)
  : Server * list Send :=
  (onMessage_outcome st ws data ts).1.

(** What [JSON.parse(raw)] gives: an exception, [null], or a value whose
    properties can be read.  A value that is not an object (a number, a
    string, a boolean, an array) reads as a frame all of whose fields are
    [JUndefined]. *)
Inductive Parse : Type :=
| parsed (data : Data)
| unparsable
| parsedNull.

(** [ws.on("message", raw => ...)].  On [null] the lookup of the session
    comes first, then [data.type] throws. *)
Definition onRawMessage_outcome (st : Server) (ws : Ws) (raw : Parse)
    (ts : Z) : Server * list Send * Completion :=
  match raw with
  | parsed data => onMessage_outcome st ws data ts
  | unparsable => (st, [], Returns)
  | parsedNull =>
      match Map_get ws (clients st) with
      | None => (st, [], Returns)
      | Some _ => (st, [], Throws)
      end
  end.

Definition onRawMessage (st : Server) (ws : Ws) (raw : Parse) (ts : Z)
  : Server * list Send :=
  (onRawMessage_outcome st ws raw ts).1.

(** [wss.on("connection", ws => ...)] up to the registration of callbacks. *)
Definition onConnection (st : Server) (ws : Ws) : Server * list Send :=
  let userId := nextUserId st in
  let st1 :=
    mkServer (Map_set ws (mkMeta userId None None false) (clients st))
             (rooms st) (S userId) (file st) in
  (st1, safeSend ws
          (welcome "Welcome! Please send {type:'login', username}")).

(** [ws.on("close", ...)] *)
Definition onClose (st : Server) (ws : Ws) : Server * list Send :=
  let meta := Map_get ws (clients st) in
  let name :=
    match meta with
    | Some m =>
        if truthyOpt (m_username m) then default "" (m_username m)
        else "User" +:+ pretty (m_id m)
    | None => "Userundefined"
    end in
  let room := meta ≫= m_room in
  let st1 :=
    match room with
    | Some r =>
        if nonEmpty r && Map_has r (rooms st)
        then putRooms (roomDelete r ws (rooms st)) st else st
    | None => st
    end in
  let st2 :=
    mkServer (Map_delete ws (clients st1)) (rooms st1) (nextUserId st1)
             (file st1) in
  (st2,
   broadcastToAll st2 (presence (usersList (clients st2)))
   ++ (if truthyOpt room
       then broadcastToRoom st2 (ofRoom room)
              (notification (name +:+ " disconnected"))
       else [])).
End Router.

(** The branch of the message callback that runs, with what it returns. *)
Inductive dispatch (isOpen : Ws → bool) (st : Server) (ws : Ws) (data : Data)
    (ts : Z) : Server * list Send → Prop :=
| dispatch_unregistered :
    Map_get ws (clients st) = None →
    dispatch isOpen st ws data ts (st, [])
| dispatch_login meta :
    Map_get ws (clients st) = Some meta →
    strictEqStr (d_type data) "login" = true →
    dispatch isOpen st ws data ts (on_login isOpen st ws meta data)
| dispatch_gate meta :
    Map_get ws (clients st) = Some meta →
    truthyOpt (m_username meta) = false →
    dispatch isOpen st ws data ts
      (st, safeSend isOpen ws (error "Please login first."))
| dispatch_create_room meta name :
    Map_get ws (clients st) = Some meta →
    m_username meta = Some name → nonEmpty name = true →
    dispatch isOpen st ws data ts (on_create_room isOpen st data)
| dispatch_join_room meta name :
    Map_get ws (clients st) = Some meta →
    m_username meta = Some name → nonEmpty name = true →
    dispatch isOpen st ws data ts (on_join_room isOpen st ws meta name data)
| dispatch_leave_room meta name :
    Map_get ws (clients st) = Some meta →
    m_username meta = Some name → nonEmpty name = true →
    dispatch isOpen st ws data ts (on_leave_room isOpen st ws meta name)
| dispatch_message meta name :
    Map_get ws (clients st) = Some meta →
    m_username meta = Some name → nonEmpty name = true →
    dispatch isOpen st ws data ts (on_message isOpen st ws meta name data ts)
| dispatch_dm meta name :
    Map_get ws (clients st) = Some meta →
    m_username meta = Some name → nonEmpty name = true →
    dispatch isOpen st ws data ts (on_dm isOpen st ws name data ts)
| dispatch_typing meta name :
    Map_get ws (clients st) = Some meta →
    m_username meta = Some name → nonEmpty name = true →
    dispatch isOpen st ws data ts (on_typing isOpen st ws meta name data)
| dispatch_history meta name :
    Map_get ws (clients st) = Some meta →
    m_username meta = Some name → nonEmpty name = true →
    dispatch isOpen st ws data ts (on_history isOpen st ws data)
| dispatch_unknown meta name :
    Map_get ws (clients st) = Some meta →
    m_username meta = Some name → nonEmpty name = true →
    dispatch isOpen st ws data ts (st, []).

(** ** The HTTP view of direct messages *)

(** [GET /dm/:userA/:userB]: the key and the log stored under it. *)
Definition get_dm (st : Server) (userA userB : string)
  : string * list DmMsg :=
  let db := readDB st in
  let key := dmKey userA userB in
  (key, dmLog key db).

(** ** Client frames of the wire protocol *)

Definition frame (type : string) : Data :=
  mkData (JStr type) JUndefined JUndefined JUndefined JUndefined JUndefined.

(** [{type: "login", username}] *)
Definition login_frame (username : jsval) : Data :=
  mkData (JStr "login") username JUndefined JUndefined JUndefined JUndefined.

(** [{type, room}] for [create_room], [join_room] and [history] *)
Definition room_frame (type : string) (room : jsval) : Data :=
  mkData (JStr type) JUndefined room JUndefined JUndefined JUndefined.

(** [{type: "message", room, text}] *)
Definition message_frame (room text : jsval) : Data :=
  mkData (JStr "message") JUndefined room text JUndefined JUndefined.

(** [{type: "dm", to, text}] *)
Definition dm_frame (to text : jsval) : Data :=
  mkData (JStr "dm") JUndefined JUndefined text to JUndefined.

(** [{type: "typing", room, isTyping}] *)
Definition typing_frame (room isTyping : jsval) : Data :=
  mkData (JStr "typing") JUndefined room JUndefined JUndefined isTyping.

(** ** Runs of the server *)

(** The transport hands a new socket object to the connection callback: it
    is a key of no registry entry and an element of no room. *)
Definition isFresh (st : Server) (ws : Ws) : bool :=
  negb (Map_has ws (clients st))
  && forallb (λ e, negb (bool_decide (ws ∈ e.2))) (rooms st).

(** One callback invocation; the event loop runs them one at a time.  A
    callback that ends by an exception leaves the state it has reached, and
    a run may go on from there; a process that stops at the exception takes
    no further step. *)
Inductive step : Server → Server → Prop :=
| step_connect isOpen st ws :
    isFresh st ws = true → step st (onConnection isOpen st ws).1
| step_message isOpen st ws raw ts :
    step st (onRawMessage isOpen st ws raw ts).1
| step_close isOpen st ws :
    step st (onClose isOpen st ws).1.

Definition reachable (st : Server) : Prop :=
  ∃ db0, rtc step (boot db0) st.

(** ** Membership *)

(** [ws] is in the Set that the Map [rs] holds for [r]. *)
Definition inRoom (rs : list (string * list Ws)) (ws : Ws) (r : string)
  : Prop :=
  ∃ s, Map_get r rs = Some s ∧ ws ∈ s.

Definition member (st : Server) (ws : Ws) (r : string) : Prop :=
  inRoom (rooms st) ws r.

(** The names of the rooms whose Set contains [ws]. *)
Definition memberships (st : Server) (ws : Ws) : list string :=
  (filter (λ e, ws ∈ e.2) (rooms st)).*1.

(** Agreement of the [room] field with the room Sets, for every session. *)
Definition consistent (st : Server) : Prop :=
  ∀ ws meta, Map_get ws (clients st) = Some meta →
    ∀ r, m_room meta = Some r ↔ member st ws r.

(** ** Invariants of the session records *)

(** Every display name is a fixed point of [trim]. *)
Definition namesTrimmed (st : Server) : Prop :=
  ∀ ws meta u, Map_get ws (clients st) = Some meta →
    m_username meta = Some u → trim u = u.

(** Every room named by a session record has a non-empty name. *)
Definition roomNamesNonEmpty (st : Server) : Prop :=
  ∀ ws meta r, Map_get ws (clients st) = Some meta →
    m_room meta = Some r → nonEmpty r = true.

(** ** Frames of one kind among the sends *)

Definition isHistory (o : Out) : bool :=
  match o with history _ _ => true | _ => false end.

(** The [history] frames among the sends, with their targets. *)
Definition historyFrames (out : list Send)
  : list (Ws * jsval * list RoomMsg) :=
  omap (λ p, match p.2 with
             | history r ms => Some (p.1, r, ms)
             | _ => None
             end) out.

(** ** Concrete runs *)

Definition allOpen : Ws → bool := λ _, true.

(** One client connects to a server with an empty store. *)
Definition run_connected : Server := (onConnection allOpen (boot emptyDB) 1).1.

(** ... and logs in as alice. *)
Definition run_alice : Server :=
  (onMessage allOpen run_connected 1 (login_frame (JStr "alice")) 0).1.

(** ... then leaves the lobby. *)
Definition run_alice_left : Server :=
  (onMessage allOpen run_alice 1 (frame "leave_room") 1).1.

(** ... or joins the room general instead. *)
Definition run_alice_general : Server :=
  (onMessage allOpen run_alice 1 (room_frame "join_room" (JStr "general")) 1).1.

(** ... and then logs in again on the same socket. *)
Definition run_alice_relogin : Server :=
  (onMessage allOpen run_alice_general 1 (login_frame (JStr "alice")) 2).1.

(** A second client connects and logs in as bob. *)
Definition run_alice_bob : Server :=
  (onMessage allOpen (onConnection allOpen run_alice 2).1 2
     (login_frame (JStr "bob")) 1).1.

(** A store whose lobby log and alice-bob log are both at the cap. *)
Definition fullDB : DB :=
  mkDB {[ "lobby" := replicate 2000 (mkRoomMsg "old" "x" 0) ]}
       {[ "alice|bob" := replicate 2000 (mkDmMsg "bob" "alice" "x" 0) ]}.

Definition run_full : Server :=
  (onMessage allOpen (onConnection allOpen (boot fullDB) 1).1 1
     (login_frame (JStr "alice")) 0).1.

(** A store whose lobby log holds 201 messages numbered by their time stamp. *)
Definition longDB : DB :=
  mkDB {[ "lobby" := (λ i, mkRoomMsg "old" "x" (Z.of_nat i)) <$> seq 0 201 ]} ∅.

Definition run_long : Server := (onConnection allOpen (boot longDB) 1).1.

(** The long-store client logs in as alice. *)
Definition run_long_alice : Server :=
  (onMessage allOpen run_long 1 (login_frame (JStr "alice")) 500).1.

(** ** The HTTP endpoints *)

(** [GET /rooms] *)
Definition get_rooms (st : Server) : list string := Map_keys (rooms st).

(** [GET /users] *)
Definition get_users (st : Server) : list UserEntry := usersList (clients st).


(** ** The message callback with the frame type of each branch *)

(** The [type] strings the message callback tests, in the order of the tests. *)
Definition knownTypes : list string :=
  ["login"; "create_room"; "join_room"; "leave_room"; "message"; "dm";
   "typing"; "history"].

Inductive route (isOpen : Ws → bool) (st : Server) (ws : Ws) (data : Data)
    (ts : Z) : Server * list Send → Prop :=
| route_unregistered :
    Map_get ws (clients st) = None →
    route isOpen st ws data ts (st, [])
| route_login meta :
    Map_get ws (clients st) = Some meta →
    d_type data = JStr "login" →
    route isOpen st ws data ts (on_login isOpen st ws meta data)
| route_gate meta :
    Map_get ws (clients st) = Some meta →
    strictEqStr (d_type data) "login" = false →
    truthyOpt (m_username meta) = false →
    route isOpen st ws data ts
      (st, safeSend isOpen ws (error "Please login first."))
| route_create_room meta name :
    Map_get ws (clients st) = Some meta →
    m_username meta = Some name → nonEmpty name = true →
    d_type data = JStr "create_room" →
    route isOpen st ws data ts (on_create_room isOpen st data)
| route_join_room meta name :
    Map_get ws (clients st) = Some meta →
    m_username meta = Some name → nonEmpty name = true →
    d_type data = JStr "join_room" →
    route isOpen st ws data ts (on_join_room isOpen st ws meta name data)
| route_leave_room meta name :
    Map_get ws (clients st) = Some meta →
    m_username meta = Some name → nonEmpty name = true →
    d_type data = JStr "leave_room" →
    route isOpen st ws data ts (on_leave_room isOpen st ws meta name)
| route_message meta name :
    Map_get ws (clients st) = Some meta →
    m_username meta = Some name → nonEmpty name = true →
    d_type data = JStr "message" →
    route isOpen st ws data ts (on_message isOpen st ws meta name data ts)
| route_dm meta name :
    Map_get ws (clients st) = Some meta →
    m_username meta = Some name → nonEmpty name = true →
    d_type data = JStr "dm" →
    route isOpen st ws data ts (on_dm isOpen st ws name data ts)
| route_typing meta name :
    Map_get ws (clients st) = Some meta →
    m_username meta = Some name → nonEmpty name = true →
    d_type data = JStr "typing" →
    route isOpen st ws data ts (on_typing isOpen st ws meta name data)
| route_history meta name :
    Map_get ws (clients st) = Some meta →
    m_username meta = Some name → nonEmpty name = true →
    d_type data = JStr "history" →
    route isOpen st ws data ts (on_history isOpen st ws data)
| route_unknown meta name :
    Map_get ws (clients st) = Some meta →
    m_username meta = Some name → nonEmpty name = true →
    (∀ t, t ∈ knownTypes → strictEqStr (d_type data) t = false) →
    route isOpen st ws data ts (st, []).

(** Every frame of [out] goes to a socket whose [readyState] is OPEN. *)
Definition targetsOpen (isOpen : Ws → bool) (out : list Send) : Prop :=
  Forall (λ p, isOpen p.1 = true) out.

(** Every stored log respects the retention cap. *)
Definition capped (db : DB) : Prop :=
  (∀ k log, db_rooms db !! k = Some log → length log ≤ 2000)
  ∧ (∀ k log, db_dms db !! k = Some log → length log ≤ 2000).

(** The separator of the pair key occurs in the name. *)
Fixpoint hasBar (s : string) : bool :=
  match s with
  | EmptyString => false
  | String c s' => bool_decide (c = "|"%char) || hasBar s'
  end.

(** Three clients: alice and bob in the lobby, carol connected only. *)
Definition run_three : Server := (onConnection allOpen run_alice_bob 3).1.

(** ** Further invariants *)

(** Every session id was handed out before the current counter value. *)
Definition idsBelowCounter (st : Server) : Prop :=
  ∀ ws meta, Map_get ws (clients st) = Some meta → m_id meta < nextUserId st.

(** Two sockets never carry the same session id. *)
Definition idsDistinct (st : Server) : Prop :=
  ∀ w1 w2 m1 m2,
    Map_get w1 (clients st) = Some m1 → Map_get w2 (clients st) = Some m2 →
    m_id m1 = m_id m2 → w1 = w2.

(** No room Set lists a socket twice. *)
Definition setsNoDup (rs : list (string * list Ws)) : Prop :=
  ∀ r s, Map_get r rs = Some s → NoDup s.

(** Every key of the store [db] is still a key of [db']. *)
Definition keysKept (db db' : DB) : Prop :=
  (∀ k, is_Some (db_rooms db !! k) → is_Some (db_rooms db' !! k))
  ∧ (∀ k, is_Some (db_dms db !! k) → is_Some (db_dms db' !! k)).

(** ** One more concrete run *)


(** ** The stand-alone broadcast server *)

Module Relay.

(** The two frames this server sends. *)
Inductive Frame : Type :=
| notification (message : string)
| message (username message : string).

(** [broadcast(data)]: one copy to each client of [wss.clients] that is
    OPEN.  The set [wss.clients] is kept by the library; the callbacks see
    its current content as [peers]. *)
Definition broadcast (isOpen : Ws → bool) (peers : list Ws) (data : Frame)
  : list (Ws * Frame) :=
  (λ client, (client, data)) <$> filter (λ client, isOpen client = true) peers.

(** The connection callback: the new counter, the name stored on the
    socket, and the frames sent. *)
Definition onConnection (isOpen : Ws → bool) (peers : list Ws)
    (userCount : nat) : nat * string * list (Ws * Frame) :=
  let username := "User" +:+ pretty userCount in
  (S userCount, username,
   broadcast isOpen peers (notification (username +:+ " joined the chat"))).

(** The message callback of a socket whose stored name is [username]. *)
Definition onMessage (isOpen : Ws → bool) (peers : list Ws)
    (username data : string) : list (Ws * Frame) :=
  broadcast isOpen peers (message username data).

(** The close callback of a socket whose stored name is [username]. *)
Definition onClose (isOpen : Ws → bool) (peers : list Ws)
    (username : string) : list (Ws * Frame) :=
  broadcast isOpen peers (notification (username +:+ " left the chat")).

(** The names given to [n] connections in a row, from the counter value
    [userCount] on. *)
Fixpoint namesGiven (isOpen : Ws → bool) (peers : list Ws) (userCount n : nat)
  : list string :=
  match n with
  | 0 => []
  | S n' =>
      let '(userCount', username, _) := onConnection isOpen peers userCount in
      username :: namesGiven isOpen peers userCount' n'
  end.

End Relay.

(** ** Runs without a second login from another room *)

(** As [step], but a [login] frame is only taken from a session that is in
    no room or in the lobby. *)
Inductive quietStep : Server → Server → Prop :=
| quiet_connect isOpen st ws :
    isFresh st ws = true → quietStep st (onConnection isOpen st ws).1
| quiet_message isOpen st ws data ts :
    (d_type data = JStr "login" →
     ∀ meta, Map_get ws (clients st) = Some meta →
       m_room meta = None ∨ m_room meta = Some defaultRoom) →
    quietStep st (onMessage isOpen st ws data ts).1
| quiet_close isOpen st ws :
    quietStep st (onClose isOpen st ws).1.
(** * Properties *)

(** ** Strings *)

Lemma nonEmpty_false (s : string) : nonEmpty s = false ↔ s = "".
Proof. destruct s; simpl; split; congruence. Qed.

Lemma nonEmpty_true (s : string) : nonEmpty s = true ↔ s ≠ "".
Proof. destruct s; simpl; split; congruence. Qed.

Lemma trimStart_head (s : string) c t :
  trimStart s = String c t → isWhiteSpace c = false.
Proof.
  induction s as [|a s IH]; simpl; [discriminate|].
  destruct (isWhiteSpace a) eqn:Ha; [exact IH|].
  intros [= <- _]. exact Ha.
Qed.

Lemma trimStart_keep c s :
  isWhiteSpace c = false → trimStart (String c s) = String c s.
Proof. intros H. simpl. by rewrite H. Qed.

Lemma trimEnd_keep c s :
  isWhiteSpace c = false → trimEnd (String c s) = String c (trimEnd s).
Proof. intros H. simpl. destruct (trimEnd s); [by rewrite H | done]. Qed.

Lemma trimEnd_idem (s : string) : trimEnd (trimEnd s) = trimEnd s.
Proof.
  induction s as [|c s IH]; [done|].
  simpl. destruct (trimEnd s) as [|d t] eqn:E.
  - destruct (isWhiteSpace c) eqn:Hc; [done|]. simpl. by rewrite Hc.
  - change (trimEnd (String c (String d t))) with
      (match trimEnd (String d t) with
       | EmptyString =>
           if isWhiteSpace c then EmptyString else String c EmptyString
       | u => String c u
       end).
    by rewrite IH.
Qed.

(** [trim] is idempotent: a trimmed name is a fixed point. *)
Lemma trim_idem (s : string) : trim (trim s) = trim s.
Proof.
  unfold trim. destruct (trimStart s) as [|c t] eqn:E; [done|].
  pose proof (trimStart_head _ _ _ E) as Hc.
  rewrite (trimEnd_keep _ _ Hc), (trimStart_keep _ _ Hc).
  rewrite (trimEnd_keep _ _ Hc). by rewrite trimEnd_idem.
Qed.

Lemma trim_keep_head c s :
  isWhiteSpace c = false → trim (String c s) = String c (trimEnd s).
Proof.
  intros H. unfold trim. by rewrite (trimStart_keep _ _ H), (trimEnd_keep _ _ H).
Qed.

(** The generated name [UserN] survives [trim] as a non-empty string. *)
Lemma generated_name_nonEmpty (n : nat) :
  nonEmpty (trim ("User" +:+ pretty n)) = true.
Proof.
  change ("User" +:+ pretty n) with (String "U" ("ser" +:+ pretty n)).
  by rewrite trim_keep_head.
Qed.

(** ** Map and Set operations *)

Section JsMapFacts.
Context {K V : Type} `{EqDecision K}.
Implicit Types (k : K) (v : V) (m : list (K * V)).

Lemma Map_get_set_eq k v m : Map_get k (Map_set k v m) = Some v.
Proof.
  induction m as [|[k' v'] m IH]; simpl.
  - by rewrite decide_True.
  - destruct (decide (k = k')); simpl.
    + by rewrite decide_True.
    + by rewrite decide_False.
Qed.

Lemma Map_get_set_ne k k' v m :
  k ≠ k' → Map_get k' (Map_set k v m) = Map_get k' m.
Proof.
  intros Hne. induction m as [|[k0 v0] m IH]; simpl.
  - by rewrite decide_False.
  - destruct (decide (k = k0)) as [->|]; simpl.
    + by rewrite !decide_False.
    + destruct (decide (k' = k0)); [done | exact IH].
Qed.

Lemma Map_get_delete_eq k m : Map_get k (Map_delete k m) = None.
Proof.
  induction m as [|[k' v'] m IH]; simpl; [done|].
  destruct (decide (k = k')); simpl; [done|]. by rewrite decide_False.
Qed.

Lemma Map_get_delete_ne k k' m :
  k ≠ k' → Map_get k' (Map_delete k m) = Map_get k' m.
Proof.
  intros Hne. induction m as [|[k0 v0] m IH]; simpl; [done|].
  destruct (decide (k = k0)) as [->|]; simpl.
  - by rewrite decide_False.
  - by destruct (decide (k' = k0)).
Qed.

Lemma Map_has_true k m : Map_has k m = true ↔ is_Some (Map_get k m).
Proof.
  unfold Map_has. by destruct (Map_get k m); split; intros H0;
    try done; try (by destruct H0).
Qed.

Lemma Map_get_elem_of k v m : Map_get k m = Some v → (k, v) ∈ m.
Proof.
  induction m as [|[k' v'] m IH]; simpl; [done|].
  destruct (decide (k = k')) as [->|].
  - intros [= ->]. apply list_elem_of_here.
  - intros Hget. apply list_elem_of_further. by apply IH.
Qed.
End JsMapFacts.

Section JsSetFacts.
Context {A : Type} `{EqDecision A}.
Implicit Types (x y : A) (s : list A).

Lemma elem_of_Set_add x y s : x ∈ Set_add y s ↔ x = y ∨ x ∈ s.
Proof.
  unfold Set_add. destruct (decide (y ∈ s)) as [Hin|Hnin].
  - split; [by right|]. by intros [->|].
  - rewrite elem_of_app, list_elem_of_singleton. tauto.
Qed.

Lemma elem_of_Set_delete x y s : x ∈ Set_delete y s ↔ x ≠ y ∧ x ∈ s.
Proof. unfold Set_delete. by rewrite list_elem_of_filter. Qed.
End JsSetFacts.

(** ** The pair key of direct messages *)

Lemma sortPair_sym (a b : string) : sortPair a b = sortPair b a.
Proof.
  unfold sortPair.
  rewrite (String.compare_antisym b a).
  destruct (String.compare a b) eqn:E; simpl; try done.
  apply String.compare_eq_iff in E. by subst.
Qed.

Lemma dmKey_sym (a b : string) : dmKey a b = dmKey b a.
Proof. unfold dmKey. by rewrite sortPair_sym. Qed.

(** ** Retention and history slices *)

Lemma pushCapped_below {A} (m : A) (log : list A) :
  length log < 2000 → pushCapped m log = log ++ [m].
Proof.
  intros H. unfold pushCapped. rewrite length_app. simpl.
  destruct (Nat.ltb_spec 2000 (length log + 1)); [lia | done].
Qed.

Lemma pushCapped_at_cap {A} (m : A) (log : list A) :
  length log = 2000 → pushCapped m log = drop 1 log ++ [m].
Proof.
  intros H. unfold pushCapped. rewrite length_app. simpl.
  destruct (Nat.ltb_spec 2000 (length log + 1)); [|lia].
  destruct log; [simpl in H; lia | done].
Qed.

Lemma pushCapped_last {A} (m : A) (log : list A) :
  last (pushCapped m log) = Some m.
Proof.
  unfold pushCapped. rewrite length_app. simpl.
  destruct (Nat.ltb_spec 2000 (length log + 1)).
  - destruct log as [|x log]; [simpl in *; lia|]. simpl.
    by rewrite last_snoc.
  - by rewrite last_snoc.
Qed.

Lemma sliceLast_length {A} (n : nat) (arr : list A) :
  length (sliceLast n arr) = Nat.min n (length arr).
Proof. unfold sliceLast. rewrite length_drop. lia. Qed.

Lemma sliceLast_short {A} (n : nat) (arr : list A) :
  length arr ≤ n → sliceLast n arr = arr.
Proof.
  intros H. unfold sliceLast.
  replace (length arr - n) with 0 by lia. done.
Qed.

Lemma sliceLast_suffix {A} (n : nat) (arr : list A) :
  arr = take (length arr - n) arr ++ sliceLast n arr.
Proof. unfold sliceLast. by rewrite take_drop. Qed.

(** ** Lookups in the store *)

Lemma roomsGet_own k db log :
  db_rooms db !! k = Some log → roomsGet k db = stored log.
Proof. intros H. unfold roomsGet. by rewrite H. Qed.

Lemma readsPrototype_own k db log :
  db_rooms db !! k = Some log → readsPrototype k db = false.
Proof. intros H. unfold readsPrototype. by rewrite (roomsGet_own _ _ _ H). Qed.

Lemma readsPrototype_not_inherited k db :
  inherited k = None → readsPrototype k db = false.
Proof.
  intros H. unfold readsPrototype, roomsGet. rewrite H.
  by destruct (db_rooms db !! k).
Qed.

(** Away from inherited values, [db.rooms[k] || []] is the own log or the
    empty log. *)
Lemma orEmpty_roomsGet k db :
  readsPrototype k db = false →
  orEmpty (roomsGet k db) = stored (roomLog k db).
Proof.
  unfold readsPrototype, roomsGet, roomLog.
  destruct (db_rooms db !! k); [done|].
  by destruct (inherited k).
Qed.

(** The lobby never reads an inherited value. *)
Lemma orEmpty_roomsGet_lobby db :
  readsPrototype defaultRoom db = false
  ∧ orEmpty (roomsGet defaultRoom db) = stored (roomLog defaultRoom db).
Proof.
  assert (H : readsPrototype defaultRoom db = false)
    by (by apply readsPrototype_not_inherited).
  split; [done|by apply orEmpty_roomsGet].
Qed.

Lemma orEmpty_roomsGet_inv k db old :
  orEmpty (roomsGet k db) = stored old →
  readsPrototype k db = false ∧ old = roomLog k db.
Proof.
  unfold readsPrototype, roomsGet, roomLog.
  destruct (db_rooms db !! k); [by intros [= ->]|].
  destruct (inherited k); [done|]. by intros [= <-].
Qed.

Lemma readsPrototype_throws k db :
  readsPrototype k db = true →
  (∃ v, roomsGet k db = fromPrototype v)
  ∧ db_rooms db !! k = None ∧ is_Some (inherited k).
Proof.
  unfold readsPrototype, roomsGet.
  destruct (db_rooms db !! k); [done|].
  destruct (inherited k) as [v|]; [|done].
  intros _. split_and!; [by exists v|done|by eexists].
Qed.

Lemma ensureRoomLog_readsPrototype r db :
  readsPrototype r db = true → ensureRoomLog r db = db.
Proof.
  intros H. apply readsPrototype_throws in H as ((v & Hv) & _).
  unfold ensureRoomLog. by rewrite Hv.
Qed.

Lemma ensureRoomLog_cases r db :
  ensureRoomLog r db = db
  ∨ (db_rooms db !! r = None
     ∧ ensureRoomLog r db = mkDB (<[r := []]> (db_rooms db)) (db_dms db)).
Proof.
  unfold ensureRoomLog, roomsGet.
  destruct (db_rooms db !! r); [by left|].
  destruct (inherited r); [by left|by right].
Qed.

Lemma ensureRoomLog_keeps r db k log :
  db_rooms db !! k = Some log → db_rooms (ensureRoomLog r db) !! k = Some log.
Proof.
  intros Hk. destruct (ensureRoomLog_cases r db) as [->|[E ->]]; [done|].
  cbn [db_rooms]. rewrite lookup_insert_ne; [done|]. intros ->. congruence.
Qed.

Lemma ensureRoomLog_dms r db : db_dms (ensureRoomLog r db) = db_dms db.
Proof. by destruct (ensureRoomLog_cases r db) as [->|[E ->]]. Qed.

(** After [if (!db.rooms[r]) db.rooms[r] = []], [db.rooms[r]] is the own
    log, unless the name reads an inherited value. *)
Lemma roomsGet_ensureRoomLog r db :
  readsPrototype r db = false →
  roomsGet r (ensureRoomLog r db) = stored (roomLog r db).
Proof.
  unfold readsPrototype, ensureRoomLog, roomLog, roomsGet.
  destruct (db_rooms db !! r) eqn:E.
  - intros _. by rewrite E.
  - destruct (inherited r); [done|]. intros _. cbn [db_rooms].
    by rewrite lookup_insert_eq.
Qed.

Lemma roomsGet_ensureRoomLog_prototype r db :
  readsPrototype r db = true →
  ∃ v, roomsGet r (ensureRoomLog r db) = fromPrototype v.
Proof.
  intros H. rewrite (ensureRoomLog_readsPrototype _ _ H).
  by apply readsPrototype_throws in H as (Hv & _).
Qed.

Lemma inherited_no_bar k : is_Some (inherited k) → hasBar k = false.
Proof.
  unfold inherited. intros [v Hv].
  destruct (bool_decide (k = "__proto__")) eqn:E1.
  - apply bool_decide_eq_true in E1 as ->. reflexivity.
  - destruct (bool_decide (k ∈ prototypeFunctions)) eqn:E2; [|done].
    apply bool_decide_eq_true in E2. unfold prototypeFunctions in E2.
    repeat (apply elem_of_cons in E2 as [->|E2]; [reflexivity|]).
    by apply elem_of_nil in E2.
Qed.

(** ** The raw frame *)

Lemma onRawMessage_parsed isOpen st ws data ts :
  onRawMessage isOpen st ws (parsed data) ts = onMessage isOpen st ws data ts.
Proof. done. Qed.

Lemma onRawMessage_unparsable isOpen st ws ts :
  onRawMessage isOpen st ws unparsable ts = (st, []).
Proof. done. Qed.

Lemma onRawMessage_parsedNull isOpen st ws ts :
  onRawMessage isOpen st ws parsedNull ts = (st, []).
Proof.
  unfold onRawMessage, onRawMessage_outcome.
  by destruct (Map_get ws (clients st)).
Qed.

(** ** Dispatch of the message callback *)

Section Dispatch.
Variable isOpen : Ws → bool.
Variables (st : Server) (ws : Ws) (meta : Meta) (name : string).
Variables (data : Data) (ts : Z).
Hypothesis Hmeta : Map_get ws (clients st) = Some meta.

Lemma onMessage_login :
  d_type data = JStr "login" →
  onMessage isOpen st ws data ts = on_login isOpen st ws meta data.
Proof. intros Ht. unfold onMessage, onMessage_outcome. by rewrite Hmeta, Ht. Qed.


Hypothesis Hname : m_username meta = Some name.
Hypothesis Hlogged : nonEmpty name = true.

Lemma onMessage_create_room :
  d_type data = JStr "create_room" →
  onMessage isOpen st ws data ts = on_create_room isOpen st data.
Proof. intros Ht. unfold onMessage, onMessage_outcome. by rewrite Hmeta, Ht, Hname, Hlogged. Qed.

Lemma onMessage_join_room :
  d_type data = JStr "join_room" →
  onMessage isOpen st ws data ts = on_join_room isOpen st ws meta name data.
Proof. intros Ht. unfold onMessage, onMessage_outcome. by rewrite Hmeta, Ht, Hname, Hlogged. Qed.

Lemma onMessage_join_room_outcome :
  d_type data = JStr "join_room" →
  onMessage_outcome isOpen st ws data ts
  = on_join_room_outcome isOpen st ws meta name data.
Proof. intros Ht. unfold onMessage_outcome. by rewrite Hmeta, Ht, Hname, Hlogged. Qed.


Lemma onMessage_leave_room :
  d_type data = JStr "leave_room" →
  onMessage isOpen st ws data ts = on_leave_room isOpen st ws meta name.
Proof. intros Ht. unfold onMessage, onMessage_outcome. by rewrite Hmeta, Ht, Hname, Hlogged. Qed.

Lemma onMessage_message :
  d_type data = JStr "message" →
  onMessage isOpen st ws data ts = on_message isOpen st ws meta name data ts.
Proof. intros Ht. unfold onMessage, onMessage_outcome. by rewrite Hmeta, Ht, Hname, Hlogged. Qed.

Lemma onMessage_dm :
  d_type data = JStr "dm" →
  onMessage isOpen st ws data ts = on_dm isOpen st ws name data ts.
Proof. intros Ht. unfold onMessage, onMessage_outcome. by rewrite Hmeta, Ht, Hname, Hlogged. Qed.

Lemma onMessage_typing :
  d_type data = JStr "typing" →
  onMessage isOpen st ws data ts = on_typing isOpen st ws meta name data.
Proof. intros Ht. unfold onMessage, onMessage_outcome. by rewrite Hmeta, Ht, Hname, Hlogged. Qed.

End Dispatch.

(** ** Sends *)

Lemma safeSend_open isOpen ws obj :
  isOpen ws = true → safeSend isOpen ws obj = [(ws, obj)].
Proof. intros H. unfold safeSend. by rewrite H. Qed.

Lemma elem_of_sendEach isOpen targets obj w o :
  (w, o) ∈ sendEach isOpen targets obj ↔
  w ∈ targets ∧ isOpen w = true ∧ o = obj.
Proof.
  unfold sendEach, Send. split.
  - intros Hin. apply list_elem_of_In, in_flat_map in Hin as (x & Hx & Hin).
    unfold safeSend in Hin.
    destruct (isOpen x) eqn:E; [|by destruct Hin].
    destruct Hin as [[= <- <-]|[]]. by apply list_elem_of_In in Hx.
  - intros (Hw & Ho & ->). apply list_elem_of_In, in_flat_map. exists w.
    split; [by apply list_elem_of_In|].
    unfold safeSend. rewrite Ho. by left.
Qed.

Lemma sendEach_nil isOpen obj : sendEach isOpen [] obj = [].
Proof. done. Qed.

Lemma broadcastToRoom_str isOpen st r obj :
  broadcastToRoom isOpen st (JStr r) obj
  = sendEach isOpen (default [] (Map_get r (rooms st))) obj.
Proof. unfold broadcastToRoom. by destruct (Map_get r (rooms st)). Qed.

(** ** Messages without a target room *)




(** ** Reachable states *)

Lemma reachable_boot db0 : reachable (boot db0).
Proof. by exists db0. Qed.

Lemma reachable_step st st' : reachable st → step st st' → reachable st'.
Proof. intros [db0 Hrun] Hstep. exists db0. by eapply rtc_r. Qed.

Lemma reachable_connect isOpen st ws :
  reachable st → isFresh st ws = true →
  reachable (onConnection isOpen st ws).1.
Proof. intros Hr Hf. eapply reachable_step; [done|]. by constructor. Qed.

Lemma reachable_message isOpen st ws data ts :
  reachable st → reachable (onMessage isOpen st ws data ts).1.
Proof.
  intros Hr. eapply reachable_step; [done|].
  apply (step_message isOpen st ws (parsed data) ts).
Qed.

Lemma reachable_close isOpen st ws :
  reachable st → reachable (onClose isOpen st ws).1.
Proof. intros Hr. eapply reachable_step; [done|]. by constructor. Qed.

Lemma reachable_run_alice : reachable run_alice.
Proof.
  apply reachable_message, reachable_connect; [apply reachable_boot|done].
Qed.

Lemma reachable_run_alice_bob : reachable run_alice_bob.
Proof.
  apply reachable_message, reachable_connect; [apply reachable_run_alice|].
  vm_compute. reflexivity.
Qed.

(** ** The message branch away from inherited names *)

Lemma on_message_resolved isOpen st ws meta name data ts room :
  js_or (d_room data) (ofRoom (m_room meta)) = room →
  truthy room = true →
  readsPrototype (toString room) (file st) = false →
  let text := toString (js_or (d_text data) (JStr "")) in
  let m := mkRoomMsg name text ts in
  let db := mkDB (<[toString room := pushCapped m (roomLog (toString room) (file st))]>
                    (db_rooms (file st))) (db_dms (file st)) in
  on_message_outcome isOpen st ws meta name data ts
  = (writeDB db st,
     broadcastToRoom isOpen (writeDB db st) room (room_message room name text ts),
     Returns).
Proof.
  intros Hroom Htruthy Hreads. unfold on_message_outcome.
  rewrite Hroom, Htruthy. cbn [negb]. unfold readDB.
  by rewrite (orEmpty_roomsGet _ _ Hreads).
Qed.

(** On a name that reads an inherited value the branch throws: nothing is
    stored and nothing is sent. *)
Lemma on_message_throws isOpen st ws meta name data ts room :
  js_or (d_room data) (ofRoom (m_room meta)) = room →
  truthy room = true →
  readsPrototype (toString room) (file st) = true →
  on_message_outcome isOpen st ws meta name data ts = (st, [], Throws).
Proof.
  intros Hroom Htruthy Hreads. unfold on_message_outcome.
  rewrite Hroom, Htruthy. cbn [negb]. unfold readDB.
  apply readsPrototype_throws in Hreads as ((v & ->) & _). done.
Qed.

(** ** Retention at the cap *)

Lemma shifted_log {A} (m : A) (log : list A) :
  length log = 2000 →
  length (drop 1 log ++ [m]) = 2000
  ∧ (∀ i, i < 1999 → (drop 1 log ++ [m]) !! i = log !! S i)
  ∧ (drop 1 log ++ [m]) !! 1999 = Some m.
Proof.
  intros Hlen.
  assert (Hd : length (drop 1 log) = 1999) by (rewrite length_drop; lia).
  split; [rewrite length_app; simpl; lia|]. split.
  - intros i Hi. rewrite lookup_app_l by lia. by rewrite lookup_drop.
  - rewrite lookup_app_r by lia. by rewrite Hd.
Qed.

(** C3. A logged-in session appends to a log that holds 2000 entries, through
    [message] (the key is the string form of [data.room || meta.room]) or
    through [dm] (the key is the sorted pair of the two names).  The stored
    log becomes the old one without its first entry, followed by the new
    message: its length is 2000 again, entry [i] is the old entry [i+1] for
    every [i < 1999], and the last entry is the new message. *)
Theorem retention_drops_oldest_at_cap isOpen st ws meta name ts :
  Map_get ws (clients st) = Some meta →
  m_username meta = Some name →
  nonEmpty name = true →
  (∀ data room log,
     d_type data = JStr "message" →
     js_or (d_room data) (ofRoom (m_room meta)) = room →
     truthy room = true →
     db_rooms (file st) !! toString room = Some log →
     length log = 2000 →
     let m := mkRoomMsg name (toString (js_or (d_text data) (JStr ""))) ts in
     ∃ log',
       db_rooms (file (onMessage isOpen st ws data ts).1) !! toString room
         = Some log'
       ∧ log' = drop 1 log ++ [m]
       ∧ length log' = 2000
       ∧ (∀ i, i < 1999 → log' !! i = log !! S i)
       ∧ log' !! 1999 = Some m)
  ∧
  (∀ data to log,
     d_type data = JStr "dm" →
     trim (toString (js_or (d_to data) (JStr ""))) = to →
     nonEmpty to = true →
     db_dms (file st) !! dmKey name to = Some log →
     length log = 2000 →
     let m :=
       mkDmMsg name to (toString (js_or (d_text data) (JStr ""))) ts in
     ∃ log',
       db_dms (file (onMessage isOpen st ws data ts).1) !! dmKey name to
         = Some log'
       ∧ log' = drop 1 log ++ [m]
       ∧ length log' = 2000
       ∧ (∀ i, i < 1999 → log' !! i = log !! S i)
       ∧ log' !! 1999 = Some m).
Proof.
  intros Hget Hname Hne. split.
  - intros data room log Hty Hroom Htruthy Hlog Hlen m.
    rewrite (onMessage_message isOpen st ws meta name data ts Hget Hname Hne Hty).
    unfold on_message.
    rewrite (on_message_resolved isOpen st ws meta name data ts room
               Hroom Htruthy (readsPrototype_own _ _ _ Hlog)).
    cbn [fst writeDB file db_rooms]. unfold roomLog. rewrite Hlog.
    cbn [default].
    rewrite lookup_insert_eq, (pushCapped_at_cap _ _ Hlen).
    eexists; split; [done|]. split; [done|].
    by apply shifted_log.
  - intros data to log Hty Hto Hnonempty Hlog Hlen m.
    rewrite (onMessage_dm isOpen st ws meta name data ts Hget Hname Hne Hty).
    unfold on_dm. rewrite Hto, Hnonempty. simpl.
    unfold dmLog, readDB. rewrite Hlog. simpl.
    rewrite lookup_insert_eq, (pushCapped_at_cap _ _ Hlen).
    eexists; split; [done|]. split; [done|].
    by apply shifted_log.
Qed.

Lemma retention_drops_oldest_at_cap_witness :
  (∃ log',
     db_rooms (file (onMessage allOpen run_full 1
                       (message_frame JUndefined (JStr "hi")) 9).1) !! "lobby"
       = Some log'
     ∧ log' = drop 1 (replicate 2000 (mkRoomMsg "old" "x" 0))
                ++ [mkRoomMsg "alice" "hi" 9]
     ∧ length log' = 2000
     ∧ (∀ i, i < 1999 →
          log' !! i = replicate 2000 (mkRoomMsg "old" "x" 0) !! S i)
     ∧ log' !! 1999 = Some (mkRoomMsg "alice" "hi" 9))
  ∧
  (∃ log',
     db_dms (file (onMessage allOpen run_full 1
                     (dm_frame (JStr "bob") (JStr "hey")) 9).1) !! "alice|bob"
       = Some log'
     ∧ log' = drop 1 (replicate 2000 (mkDmMsg "bob" "alice" "x" 0))
                ++ [mkDmMsg "alice" "bob" "hey" 9]
     ∧ length log' = 2000
     ∧ (∀ i, i < 1999 →
          log' !! i = replicate 2000 (mkDmMsg "bob" "alice" "x" 0) !! S i)
     ∧ log' !! 1999 = Some (mkDmMsg "alice" "bob" "hey" 9)).
Proof.
  assert (H1 : Map_get 1 (clients run_full)
               = Some (mkMeta 1 (Some "alice") (Some "lobby") false))
    by (vm_compute; reflexivity).
  destruct (retention_drops_oldest_at_cap allOpen run_full 1
              (mkMeta 1 (Some "alice") (Some "lobby") false) "alice" 9
              H1 eq_refl eq_refl) as [Hmsg Hdm].
  split.
  - apply (Hmsg (message_frame JUndefined (JStr "hi")) (JStr "lobby")
             (replicate 2000 (mkRoomMsg "old" "x" 0)));
      vm_compute; reflexivity.
  - apply (Hdm (dm_frame (JStr "bob") (JStr "hey")) "bob"
             (replicate 2000 (mkDmMsg "bob" "alice" "x" 0)));
      vm_compute; reflexivity.
Defined.

(** ** Messages addressed to a named room *)

(** A logged-in session sends a [message] frame whose [room] field is a
    non-empty string [r] that does not read an inherited value from the
    store.  Whatever the sender's own room and whether or not [rooms] has an
    entry for [r]: the store gets, under key [r], the old log with the
    message pushed (capped at 2000), so the message is its last entry; no
    other part of the state changes; and the [room_message] frame goes to
    the open sockets of the Set that [rooms] holds for [r], in order, and to
    nobody else.  When [rooms] has no entry for [r] nothing is sent, the
    store is written all the same, and it differs from the old one whenever
    the old log was below the cap. *)
Lemma message_to_plain_room_name isOpen st ws meta name data ts r :
  Map_get ws (clients st) = Some meta →
  m_username meta = Some name →
  nonEmpty name = true →
  d_type data = JStr "message" →
  d_room data = JStr r →
  nonEmpty r = true →
  readsPrototype r (file st) = false →
  let text := toString (js_or (d_text data) (JStr "")) in
  let m := mkRoomMsg name text ts in
  let st' := (onMessage isOpen st ws data ts).1 in
  let out := (onMessage isOpen st ws data ts).2 in
  (onMessage_outcome isOpen st ws data ts).2 = Returns
  ∧ file st' = mkDB (<[r := pushCapped m (roomLog r (file st))]>
                       (db_rooms (file st))) (db_dms (file st))
  ∧ (∃ log', db_rooms (file st') !! r = Some log' ∧ last log' = Some m)
  ∧ clients st' = clients st
  ∧ rooms st' = rooms st
  ∧ nextUserId st' = nextUserId st
  ∧ out = sendEach isOpen (default [] (Map_get r (rooms st)))
            (room_message (JStr r) name text ts)
  ∧ (∀ w o, (w, o) ∈ out ↔
       (∃ s, Map_get r (rooms st) = Some s ∧ w ∈ s)
       ∧ isOpen w = true ∧ o = room_message (JStr r) name text ts)
  ∧ (Map_get r (rooms st) = None →
       out = []
       ∧ (length (roomLog r (file st)) < 2000 → file st' ≠ file st)).
Proof.
  intros Hget Hname Hne Hty Hroom Hr Hreads text m st' out.
  subst st' out.
  assert (Hres : js_or (d_room data) (ofRoom (m_room meta)) = JStr r)
    by (unfold js_or; rewrite Hroom; simpl; by rewrite Hr).
  assert (Hout : onMessage_outcome isOpen st ws data ts
                 = on_message_outcome isOpen st ws meta name data ts).
  { unfold onMessage_outcome. by rewrite Hget, Hty, Hname, Hne. }
  unfold onMessage. rewrite Hout.
  rewrite (on_message_resolved isOpen st ws meta name data ts (JStr r)
             Hres Hr Hreads).
  cbn [fst snd toString]. fold text. fold m.
  rewrite broadcastToRoom_str. unfold writeDB. cbn [file rooms clients nextUserId].
  split_and!; try done.
  - exists (pushCapped m (roomLog r (file st))).
    cbn [db_rooms]. by rewrite lookup_insert_eq, pushCapped_last.
  - intros w o. rewrite elem_of_sendEach. split.
    + intros (Hw & Ho & ->). split_and!; try done.
      destruct (Map_get r (rooms st)) as [s|]; [by exists s|].
      simpl in Hw. by apply elem_of_nil in Hw.
    + intros ((s & Hs & Hw) & Ho & ->). by rewrite Hs.
  - intros Hnone. rewrite Hnone. split; [done|].
    intros Hlt Heq.
    assert (Hl : db_rooms (file st) !! r
                 = Some (pushCapped m (roomLog r (file st)))).
    { rewrite <- Heq at 1. cbn [db_rooms]. by rewrite lookup_insert_eq. }
    rewrite (pushCapped_below _ _ Hlt) in Hl.
    unfold roomLog in Hl.
    destruct (db_rooms (file st) !! r) as [l|]; [|done].
    simpl in Hl. injection Hl as Hl.
    apply (f_equal length) in Hl. rewrite length_app in Hl. simpl in Hl. lia.
Qed.

(** alice, alone in the lobby, writes to a room nobody created. *)
Lemma message_to_plain_room_name_example :
  let st' := (onMessage allOpen run_alice 1
                (message_frame (JStr "nowhere") (JStr "hi")) 7).1 in
  let out := (onMessage allOpen run_alice 1
                (message_frame (JStr "nowhere") (JStr "hi")) 7).2 in
  Map_get "nowhere" (rooms run_alice) = None
  ∧ out = []
  ∧ db_rooms (file st') !! "nowhere" = Some [mkRoomMsg "alice" "hi" 7]
  ∧ file st' ≠ file run_alice.
Proof.
  assert (H1 : Map_get 1 (clients run_alice)
               = Some (mkMeta 1 (Some "alice") (Some "lobby") false))
    by (vm_compute; reflexivity).
  destruct (message_to_plain_room_name allOpen run_alice 1
              (mkMeta 1 (Some "alice") (Some "lobby") false) "alice"
              (message_frame (JStr "nowhere") (JStr "hi")) 7 "nowhere"
              H1 eq_refl eq_refl eq_refl eq_refl eq_refl eq_refl)
    as (_ & Hfile & _ & _ & _ & _ & _ & _ & Hnone).
  assert (H2 : Map_get "nowhere" (rooms run_alice) = None)
    by (vm_compute; reflexivity).
  destruct (Hnone H2) as [Hout Hneq].
  split; [exact H2|]. split; [exact Hout|]. split.
  - rewrite Hfile. vm_compute. reflexivity.
  - apply Hneq. vm_compute. lia.
Defined.

(** C10. The claim fails on a room name that [Object.prototype] defines:
    alice, logged in, sends [{type: "message", room: "constructor", text:
    "hi"}].  The store has no log of its own under that name, so
    [db.rooms[room] || []] is the inherited function, [.push] on it throws,
    and the callback ends before [writeDB] and before any send: nothing is
    appended to the store and nothing is delivered. *)
Theorem message_to_inherited_name_is_lost :
  reachable run_alice
  ∧ readsPrototype "constructor" (file run_alice) = true
  ∧ onMessage_outcome allOpen run_alice 1
      (message_frame (JStr "constructor") (JStr "hi")) 7
    = (run_alice, [], Throws)
  ∧ db_rooms (file (onMessage allOpen run_alice 1
                      (message_frame (JStr "constructor") (JStr "hi")) 7).1)
      !! "constructor" = None.
Proof.
  split; [apply reachable_run_alice|].
  split_and!; vm_compute; reflexivity.
Qed.

(** ** Display names *)

(** What [login] stores as the display name. *)
Lemma login_sets_name isOpen st ws meta data ts :
  Map_get ws (clients st) = Some meta →
  d_type data = JStr "login" →
  ∃ meta',
    Map_get ws (clients (onMessage isOpen st ws data ts).1) = Some meta'
    ∧ m_id meta' = m_id meta
    ∧ m_username meta' =
        Some (trim (toString (js_or (d_username data)
                                (JStr ("User" +:+ pretty (m_id meta)))))).
Proof.
  intros Hget Hty.
  rewrite (onMessage_login isOpen st ws meta data ts Hget Hty).
  unfold on_login. cbn [fst clients writeDB putRooms putMeta].
  rewrite Map_get_set_eq. by eexists.
Qed.

(** An absent, [null], [false] or empty [username] gives the generated
    name, which is not empty. *)
Lemma login_default_name isOpen st ws meta data ts :
  Map_get ws (clients st) = Some meta →
  d_type data = JStr "login" →
  truthy (d_username data) = false →
  ∃ meta',
    Map_get ws (clients (onMessage isOpen st ws data ts).1) = Some meta'
    ∧ m_username meta' = Some (trim ("User" +:+ pretty (m_id meta)))
    ∧ truthyOpt (m_username meta') = true.
Proof.
  intros Hget Hty Hfalsy.
  destruct (login_sets_name isOpen st ws meta data ts Hget Hty)
    as (meta' & Hget' & _ & Hname).
  exists meta'. unfold js_or in Hname. rewrite Hfalsy in Hname.
  cbn [toString] in Hname. rewrite Hname. split_and!; try done.
  apply generated_name_nonEmpty.
Qed.

(** C9. The claim fails on a name made of white space only: the client
    with id 1 logs in with the one-space name, the default is not taken
    because the name is truthy, and [trim] then leaves the empty string as the
    display name of the session. *)
Theorem login_blank_name_yields_empty_name :
  Map_get 1 (clients (onMessage allOpen run_connected 1
                        (login_frame (JStr " ")) 0).1)
  = Some (mkMeta 1 (Some "") (Some "lobby") false)
  ∧ truthyOpt (Some "") = false.
Proof. split; vm_compute; reflexivity. Qed.

(** ** Typing notifications *)

(** [typing] stores the flag and sends the frame to every open socket of the
    Set of the session's room, the sender's own socket included. *)
Lemma typing_targets isOpen st ws meta name data ts :
  Map_get ws (clients st) = Some meta →
  m_username meta = Some name →
  nonEmpty name = true →
  d_type data = JStr "typing" →
  let isTyping := truthy (d_isTyping data) in
  let st' := (onMessage isOpen st ws data ts).1 in
  Map_get ws (clients st') = Some (set_typing isTyping meta)
  ∧ rooms st' = rooms st
  ∧ file st' = file st
  ∧ (onMessage isOpen st ws data ts).2 =
      match m_room meta with
      | Some r =>
          sendEach isOpen (default [] (Map_get r (rooms st)))
            (typing (m_room meta) name isTyping)
      | None => []
      end.
Proof.
  intros Hget Hname Hne Hty isTyping st'. subst st'.
  rewrite (onMessage_typing isOpen st ws meta name data ts Hget Hname Hne Hty).
  unfold on_typing. cbn [fst snd]. fold isTyping.
  split_and!; try done.
  - cbn [putMeta clients]. by rewrite Map_get_set_eq.
  - destruct (m_room meta) as [r|]; [|done].
    cbn [ofRoom]. by rewrite broadcastToRoom_str.
Qed.

(** C7. The claim fails for the sender: alice and bob are both in the lobby,
    alice sends a [typing] frame, and the notification goes to alice's own
    socket (1) as well as to bob's (2). *)
Theorem typing_is_echoed_to_sender :
  (onMessage allOpen run_alice_bob 1
     (typing_frame (JStr "lobby") (JBool true)) 5).2
  = [(1, typing (Some "lobby") "alice" true);
     (2, typing (Some "lobby") "alice" true)].
Proof. vm_compute. reflexivity. Qed.

(** ** History replies *)

Lemma historyFrames_app (a b : list Send) :
  historyFrames (a ++ b) = historyFrames a ++ historyFrames b.
Proof. unfold historyFrames. apply omap_app. Qed.

Lemma historyFrames_safeSend isOpen ws obj :
  isHistory obj = false → historyFrames (safeSend isOpen ws obj) = [].
Proof.
  intros Hobj. unfold safeSend. destruct (isOpen ws); [|done].
  by destruct obj.
Qed.

Lemma historyFrames_sendEach isOpen targets obj :
  isHistory obj = false → historyFrames (sendEach isOpen targets obj) = [].
Proof.
  intros Hobj. induction targets as [|w targets IH]; [done|].
  unfold sendEach in *. simpl. rewrite historyFrames_app, IH.
  by rewrite historyFrames_safeSend.
Qed.

Lemma historyFrames_broadcastToRoom isOpen st room obj :
  isHistory obj = false → historyFrames (broadcastToRoom isOpen st room obj) = [].
Proof.
  intros Hobj. unfold broadcastToRoom. destruct room; try done.
  destruct (Map_get s (rooms st)); [|done].
  by apply historyFrames_sendEach.
Qed.

Lemma historyFrames_broadcastToAll isOpen st obj :
  isHistory obj = false → historyFrames (broadcastToAll isOpen st obj) = [].
Proof. apply historyFrames_sendEach. Qed.

Lemma roomLog_ensure r r' db : roomLog r (ensureRoomLog r' db) = roomLog r db.
Proof.
  unfold ensureRoomLog, roomsGet, roomLog.
  destruct (db_rooms db !! r') eqn:E; [done|].
  destruct (inherited r'); [done|]. cbn [db_rooms].
  destruct (decide (r' = r)) as [->|Hne].
  - by rewrite lookup_insert_eq, E.
  - by rewrite lookup_insert_ne.
Qed.

Lemma leaveCurrent_keeps isOpen st ws meta name :
  clients (leaveCurrent isOpen st ws meta name).1 = clients st
  ∧ file (leaveCurrent isOpen st ws meta name).1 = file st
  ∧ nextUserId (leaveCurrent isOpen st ws meta name).1 = nextUserId st
  ∧ historyFrames (leaveCurrent isOpen st ws meta name).2 = [].
Proof.
  unfold leaveCurrent. destruct (m_room meta) as [r|]; [|done].
  destruct (nonEmpty r && Map_has r (rooms st)); [|done].
  cbn [fst snd]. split_and!; try done.
  by apply historyFrames_broadcastToRoom.
Qed.

(** The [join_room] branch away from inherited names. *)
Lemma on_join_room_resolved isOpen st ws meta name data room :
  trim (toString (d_room data)) = room →
  nonEmpty room = true →
  readsPrototype room (file st) = false →
  let lc := leaveCurrent isOpen st ws meta name in
  let st3 :=
    mkServer (Map_set ws (set_room (Some room) meta) (clients st))
      (roomAdd room ws (ensureRoom room (rooms lc.1)))
      (nextUserId st) (ensureRoomLog room (file st)) in
  on_join_room_outcome isOpen st ws meta name data =
    (st3,
     lc.2
     ++ safeSend isOpen ws
          (history (JStr room) (sliceLast 200 (roomLog room (file st))))
     ++ broadcastToRoom isOpen st3 (JStr room)
          (notification (name +:+ " joined " +:+ room))
     ++ broadcastToAll isOpen st3 (room_list (Map_keys (rooms st3))),
     Returns).
Proof.
  intros Hroom Hr Hreads lc st3. subst lc st3.
  unfold on_join_room_outcome. rewrite Hroom, Hr. cbn [negb].
  destruct (leaveCurrent_keeps isOpen st ws meta name) as (Hc & Hf & Hn & _).
  destruct (leaveCurrent isOpen st ws meta name) as [st1 out1].
  cbn [fst snd] in *. unfold writeDB, readDB, putRooms, putMeta.
  cbn [clients rooms nextUserId file]. rewrite Hc, Hf, Hn.
  by rewrite (roomsGet_ensureRoomLog _ _ Hreads).
Qed.

(** On a name that reads an inherited value the branch throws after the
    registries have been updated and the "left" notification sent. *)
Lemma on_join_room_throws isOpen st ws meta name data room :
  trim (toString (d_room data)) = room →
  nonEmpty room = true →
  readsPrototype room (file st) = true →
  let lc := leaveCurrent isOpen st ws meta name in
  on_join_room_outcome isOpen st ws meta name data =
    (mkServer (Map_set ws (set_room (Some room) meta) (clients st))
       (roomAdd room ws (ensureRoom room (rooms lc.1)))
       (nextUserId st) (file st),
     lc.2, Throws).
Proof.
  intros Hroom Hr Hreads lc. subst lc.
  unfold on_join_room_outcome. rewrite Hroom, Hr. cbn [negb].
  destruct (leaveCurrent_keeps isOpen st ws meta name) as (Hc & Hf & Hn & _).
  destruct (leaveCurrent isOpen st ws meta name) as [st1 out1].
  cbn [fst snd] in *. unfold writeDB, readDB, putRooms, putMeta.
  cbn [clients rooms nextUserId file]. rewrite Hc, Hf, Hn.
  destruct (roomsGet_ensureRoomLog_prototype _ _ Hreads) as [v ->].
  by rewrite (ensureRoomLog_readsPrototype _ _ Hreads).
Qed.

Lemma sliceLast_200 {A} (log : list A) :
  length (sliceLast 200 log) ≤ 200
  ∧ (length log ≤ 200 → sliceLast 200 log = log)
  ∧ (200 < length log →
       length (sliceLast 200 log) = 200
       ∧ log = take (length log - 200) log ++ sliceLast 200 log).
Proof.
  pose proof (sliceLast_length 200 log) as Hlen. split_and!.
  - lia.
  - apply sliceLast_short.
  - intros Hlong. split; [lia | apply sliceLast_suffix].
Qed.

(** [login] and [join_room] send exactly one [history] frame, to the
    calling socket, for the room joined (the lobby for [login], the trimmed
    [room] field for [join_room]), provided the room name does not read an
    inherited value from the store.  Its payload is [slice(-200)] of the log
    the store held for that room before the call: never more than 200
    entries, the whole log when that has at most 200 entries, and otherwise
    its final 200 entries in their stored order. *)
Lemma history_reply_for_plain_room_name isOpen st ws meta data ts :
  Map_get ws (clients st) = Some meta →
  isOpen ws = true →
  (d_type data = JStr "login" →
   let log := roomLog "lobby" (file st) in
   let payload := sliceLast 200 log in
   historyFrames (onMessage isOpen st ws data ts).2
     = [(ws, JStr "lobby", payload)]
   ∧ length payload ≤ 200
   ∧ (length log ≤ 200 → payload = log)
   ∧ (200 < length log →
        length payload = 200
        ∧ log = take (length log - 200) log ++ payload))
  ∧
  (∀ name room,
     d_type data = JStr "join_room" →
     m_username meta = Some name →
     nonEmpty name = true →
     trim (toString (d_room data)) = room →
     nonEmpty room = true →
     readsPrototype room (file st) = false →
     let log := roomLog room (file st) in
     let payload := sliceLast 200 log in
     historyFrames (onMessage isOpen st ws data ts).2
       = [(ws, JStr room, payload)]
     ∧ length payload ≤ 200
     ∧ (length log ≤ 200 → payload = log)
     ∧ (200 < length log →
          length payload = 200
          ∧ log = take (length log - 200) log ++ payload)).
Proof.
  intros Hget Hopen. split.
  - intros Hty log payload. split; [|apply sliceLast_200].
    rewrite (onMessage_login isOpen st ws meta data ts Hget Hty).
    unfold on_login. cbn [snd].
    rewrite !historyFrames_app.
    rewrite historyFrames_safeSend, historyFrames_broadcastToAll,
      historyFrames_broadcastToRoom by done.
    rewrite (safeSend_open _ _ _ Hopen).
    unfold readDB, writeDB, putRooms, putMeta. cbn [file].
    by rewrite roomLog_ensure.
  - intros name room Hty Hname Hne Hroom Hr Hreads log payload.
    split; [|apply sliceLast_200].
    rewrite (onMessage_join_room isOpen st ws meta name data ts
               Hget Hname Hne Hty).
    unfold on_join_room.
    rewrite (on_join_room_resolved isOpen st ws meta name data room
               Hroom Hr Hreads).
    cbn [fst snd].
    destruct (leaveCurrent_keeps isOpen st ws meta name)
      as (_ & _ & _ & Hhist).
    rewrite !historyFrames_app, Hhist.
    rewrite historyFrames_broadcastToAll, historyFrames_broadcastToRoom by done.
    by rewrite (safeSend_open _ _ _ Hopen).
Qed.

(** A lobby log of 201 entries: the reply leaves out the oldest one. *)
Lemma history_reply_for_plain_room_name_example :
  historyFrames (onMessage allOpen run_long 1 (login_frame (JStr "alice")) 500).2
    = [(1, JStr "lobby",
        (λ i, mkRoomMsg "old" "x" (Z.of_nat i)) <$> seq 1 200)]
  ∧ historyFrames (onMessage allOpen run_long_alice 1
                     (room_frame "join_room" (JStr " lobby ")) 501).2
    = [(1, JStr "lobby",
        (λ i, mkRoomMsg "old" "x" (Z.of_nat i)) <$> seq 1 200)].
Proof.
  split.
  - destruct (history_reply_for_plain_room_name allOpen run_long 1
                (mkMeta 1 None None false) (login_frame (JStr "alice")) 500
                eq_refl eq_refl) as [Hlogin _].
    destruct (Hlogin eq_refl) as [Hframes _].
    rewrite Hframes. vm_compute. reflexivity.
  - assert (H1 : Map_get 1 (clients run_long_alice)
                 = Some (mkMeta 1 (Some "alice") (Some "lobby") false))
      by (vm_compute; reflexivity).
    destruct (history_reply_for_plain_room_name allOpen run_long_alice 1
                (mkMeta 1 (Some "alice") (Some "lobby") false)
                (room_frame "join_room" (JStr " lobby ")) 501
                H1 eq_refl) as [_ Hjoin].
    destruct (Hjoin "alice" "lobby" eq_refl eq_refl eq_refl eq_refl eq_refl
                eq_refl) as [Hframes _].
    rewrite Hframes. vm_compute. reflexivity.
Defined.

(** C8. The claim fails on a room name that [Object.prototype] defines:
    alice, in the lobby with bob, sends [{type: "join_room", room:
    "constructor"}].  The guard [if (!db.rooms[room])] sees the inherited
    function and writes no log, [db2.rooms[room].slice(-200)] then throws:
    bob has been told that alice left, alice is registered in the new room,
    and the callback ends without any [history] frame, for alice or anyone
    else. *)
Theorem join_room_inherited_name_sends_no_history :
  reachable run_alice_bob
  ∧ readsPrototype "constructor" (file run_alice_bob) = true
  ∧ (onMessage_outcome allOpen run_alice_bob 1
       (room_frame "join_room" (JStr "constructor")) 5).2 = Throws
  ∧ (onMessage allOpen run_alice_bob 1
       (room_frame "join_room" (JStr "constructor")) 5).2
    = [(2, notification "alice left lobby")]
  ∧ historyFrames (onMessage allOpen run_alice_bob 1
                     (room_frame "join_room" (JStr "constructor")) 5).2 = []
  ∧ Map_get 1 (clients (onMessage allOpen run_alice_bob 1
                          (room_frame "join_room" (JStr "constructor")) 5).1)
    = Some (mkMeta 1 (Some "alice") (Some "constructor") false)
  ∧ rooms (onMessage allOpen run_alice_bob 1
             (room_frame "join_room" (JStr "constructor")) 5).1
    = [("lobby", [2]); ("constructor", [1])].
Proof.
  split; [apply reachable_run_alice_bob|].
  split_and!; vm_compute; reflexivity.
Qed.

(** ** Violated preconditions *)




(** ** The branches of the message callback *)

Lemma onMessage_dispatch isOpen st ws data ts :
  dispatch isOpen st ws data ts (onMessage isOpen st ws data ts).
Proof.
  unfold onMessage, onMessage_outcome.
  destruct (Map_get ws (clients st)) as [meta|] eqn:Hget;
    [|by apply dispatch_unregistered].
  destruct (strictEqStr (d_type data) "login") eqn:Hlogin;
    [by apply dispatch_login|].
  destruct (m_username meta) as [name|] eqn:Hname;
    [|by apply (dispatch_gate _ _ _ _ _ meta); [|rewrite Hname]].
  destruct (nonEmpty name) eqn:Hne; cbn [negb];
    [|by apply (dispatch_gate _ _ _ _ _ meta); [|rewrite Hname]].
  repeat (match goal with
          | |- context [if strictEqStr ?a ?b then _ else _] =>
              destruct (strictEqStr a b)
          end;
          [by eauto using dispatch|]).
  by eapply dispatch_unknown.
Qed.

(** What each branch does to [clients]. *)
Lemma leaveCurrent_rooms isOpen st ws meta name :
  rooms (leaveCurrent isOpen st ws meta name).1 =
    match m_room meta with
    | Some r =>
        if nonEmpty r && Map_has r (rooms st)
        then roomDelete r ws (rooms st) else rooms st
    | None => rooms st
    end.
Proof.
  unfold leaveCurrent. destruct (m_room meta) as [r|]; [|done].
  by destruct (nonEmpty r && Map_has r (rooms st)).
Qed.

Lemma on_join_room_state isOpen st ws meta name data :
  let room := trim (toString (d_room data)) in
  (on_join_room isOpen st ws meta name data).1 =
    if nonEmpty room then
      mkServer (Map_set ws (set_room (Some room) meta) (clients st))
        (roomAdd room ws
           (ensureRoom room (rooms (leaveCurrent isOpen st ws meta name).1)))
        (nextUserId st)
        (ensureRoomLog room (file st))
    else st.
Proof.
  intros room. unfold on_join_room. destruct (nonEmpty room) eqn:Hr.
  - destruct (readsPrototype room (file st)) eqn:Hreads.
    + rewrite (on_join_room_throws isOpen st ws meta name data room
                 eq_refl Hr Hreads).
      cbn [fst]. by rewrite (ensureRoomLog_readsPrototype _ _ Hreads).
    + by rewrite (on_join_room_resolved isOpen st ws meta name data room
                    eq_refl Hr Hreads).
  - unfold on_join_room_outcome. fold room. by rewrite Hr.
Qed.

Lemma on_leave_room_state isOpen st ws meta name :
  (on_leave_room isOpen st ws meta name).1 =
    mkServer (Map_set ws (set_room None meta) (clients st))
      (rooms (leaveCurrent isOpen st ws meta name).1)
      (nextUserId st) (file st).
Proof.
  unfold on_leave_room.
  destruct (leaveCurrent_keeps isOpen st ws meta name) as (Hc & Hf & Hn & _).
  destruct (leaveCurrent isOpen st ws meta name) as [st1 out1].
  cbn [fst snd] in *. unfold putMeta. by rewrite Hc, Hf, Hn.
Qed.

Lemma on_create_room_state isOpen st data :
  let room := trim (toString (d_room data)) in
  (on_create_room isOpen st data).1 =
    if nonEmpty room then
      mkServer (clients st) (ensureRoom room (rooms st)) (nextUserId st)
        (ensureRoomLog room (file st))
    else st.
Proof.
  intros room. unfold on_create_room. fold room.
  by destruct (nonEmpty room).
Qed.

(** The state after the [message] branch: unchanged (no room, or an
    exception), or with one room log pushed. *)
Lemma on_message_state isOpen st ws meta name data ts :
  (on_message isOpen st ws meta name data ts).1 = st
  ∨ ∃ k m,
      (on_message isOpen st ws meta name data ts).1 =
        mkServer (clients st) (rooms st) (nextUserId st)
          (mkDB (<[k := pushCapped m (roomLog k (file st))]>
                   (db_rooms (file st))) (db_dms (file st))).
Proof.
  unfold on_message, on_message_outcome.
  destruct (truthy (js_or (d_room data) (ofRoom (m_room meta))));
    cbn [negb]; [|by left].
  destruct (orEmpty (roomsGet _ (readDB st))) as [old| |] eqn:E;
    [|by left..].
  apply orEmpty_roomsGet_inv in E as [_ ->]. right. by eexists _, _.
Qed.

Lemma on_message_registries isOpen st ws meta name data ts :
  clients (on_message isOpen st ws meta name data ts).1 = clients st
  ∧ rooms (on_message isOpen st ws meta name data ts).1 = rooms st.
Proof.
  by destruct (on_message_state isOpen st ws meta name data ts)
    as [->|(k & m & ->)].
Qed.

Lemma on_dm_registries isOpen st ws name data ts :
  clients (on_dm isOpen st ws name data ts).1 = clients st
  ∧ rooms (on_dm isOpen st ws name data ts).1 = rooms st.
Proof.
  unfold on_dm.
  by destruct (nonEmpty (trim (toString (js_or (d_to data) (JStr ""))))).
Qed.

Lemma on_history_state isOpen st ws data :
  (on_history isOpen st ws data).1 = st.
Proof. unfold on_history. by destruct (truthy (d_room data)). Qed.

Lemma on_login_state isOpen st ws meta data :
  let username :=
    trim (toString (js_or (d_username data)
                          (JStr ("User" +:+ pretty (m_id meta))))) in
  (on_login isOpen st ws meta data).1 =
    mkServer
      (Map_set ws (set_room (Some defaultRoom) (set_username username meta))
         (clients st))
      (roomAdd defaultRoom ws (ensureRoom defaultRoom (rooms st)))
      (nextUserId st)
      (ensureRoomLog defaultRoom (file st)).
Proof. done. Qed.

Lemma on_typing_state isOpen st ws meta name data :
  (on_typing isOpen st ws meta name data).1 =
    mkServer
      (Map_set ws (set_typing (truthy (d_isTyping data)) meta) (clients st))
      (rooms st) (nextUserId st) (file st).
Proof. done. Qed.

(** ** How a session record changes *)

(** A record found in [clients] after the message callback is the one that
    was there before, or it is the caller's record with the same id, with
    the old name or a trimmed one, and with the old room, no room, or a room
    with a non-empty name. *)
Lemma onMessage_meta isOpen st ws data ts w meta' :
  Map_get w (clients (onMessage isOpen st ws data ts).1) = Some meta' →
  Map_get w (clients st) = Some meta'
  ∨ (w = ws
     ∧ ∃ meta,
         Map_get ws (clients st) = Some meta
         ∧ m_id meta' = m_id meta
         ∧ (m_username meta' = m_username meta
            ∨ ∃ s, m_username meta' = Some (trim s))
         ∧ (m_room meta' = m_room meta
            ∨ m_room meta' = None
            ∨ ∃ r, m_room meta' = Some r ∧ nonEmpty r = true)).
Proof.
  assert (Hset : ∀ metaX meta,
    Map_get ws (clients st) = Some meta →
    m_id metaX = m_id meta →
    (m_username metaX = m_username meta
     ∨ ∃ s, m_username metaX = Some (trim s)) →
    (m_room metaX = m_room meta
     ∨ m_room metaX = None
     ∨ ∃ r, m_room metaX = Some r ∧ nonEmpty r = true) →
    Map_get w (Map_set ws metaX (clients st)) = Some meta' →
    Map_get w (clients st) = Some meta'
    ∨ (w = ws
       ∧ ∃ meta,
           Map_get ws (clients st) = Some meta
           ∧ m_id meta' = m_id meta
           ∧ (m_username meta' = m_username meta
              ∨ ∃ s, m_username meta' = Some (trim s))
           ∧ (m_room meta' = m_room meta
              ∨ m_room meta' = None
              ∨ ∃ r, m_room meta' = Some r ∧ nonEmpty r = true))).
  { intros metaX meta Hget Hid Hu Hr Hw.
    destruct (decide (ws = w)) as [<-|Hne].
    - rewrite Map_get_set_eq in Hw. injection Hw as <-. right.
      split; [done|]. by exists meta.
    - rewrite Map_get_set_ne in Hw by done. by left. }
  destruct (onMessage_dispatch isOpen st ws data ts)
    as [Hget|meta Hget Hlogin|meta Hget Hu|meta name Hget Hname Hne
       |meta name Hget Hname Hne|meta name Hget Hname Hne
       |meta name Hget Hname Hne|meta name Hget Hname Hne
       |meta name Hget Hname Hne|meta name Hget Hname Hne
       |meta name Hget Hname Hne]; try (by left).
  - rewrite on_login_state. cbn [clients].
    apply (Hset _ meta Hget); cbn; eauto.
  - rewrite on_create_room_state.
    destruct (nonEmpty (trim (toString (d_room data)))); by left.
  - rewrite on_join_room_state.
    destruct (nonEmpty (trim (toString (d_room data)))) eqn:Hroom;
      [|by left].
    cbn [clients]. apply (Hset _ meta Hget); cbn; eauto.
  - rewrite on_leave_room_state. cbn [clients].
    apply (Hset _ meta Hget); cbn; eauto.
  - destruct (on_message_registries isOpen st ws meta name data ts) as [-> _].
    by left.
  - destruct (on_dm_registries isOpen st ws name data ts) as [-> _].
    by left.
  - rewrite on_typing_state. cbn [clients].
    apply (Hset _ meta Hget); cbn; eauto.
  - rewrite on_history_state. by left.
Qed.

Lemma onConnection_meta isOpen st ws w meta' :
  Map_get w (clients (onConnection isOpen st ws).1) = Some meta' →
  Map_get w (clients st) = Some meta'
  ∨ (w = ws ∧ meta' = mkMeta (nextUserId st) None None false).
Proof.
  unfold onConnection. cbn [fst clients]. intros Hw.
  destruct (decide (ws = w)) as [<-|Hne].
  - rewrite Map_get_set_eq in Hw. injection Hw as <-. by right.
  - rewrite Map_get_set_ne in Hw by done. by left.
Qed.

Lemma onClose_meta isOpen st ws w meta' :
  Map_get w (clients (onClose isOpen st ws).1) = Some meta' →
  w ≠ ws ∧ Map_get w (clients st) = Some meta'.
Proof.
  unfold onClose. cbn [fst clients]. intros Hw.
  assert (Hc : ∀ st1 : Server, clients st1 = clients st →
            Map_get w (Map_delete ws (clients st1)) = Some meta' →
            w ≠ ws ∧ Map_get w (clients st) = Some meta').
  { intros st1 -> Hd. destruct (decide (ws = w)) as [<-|Hne].
    - by rewrite Map_get_delete_eq in Hd.
    - by rewrite Map_get_delete_ne in Hd. }
  eapply Hc; [|exact Hw].
  destruct (Map_get ws (clients st) ≫= m_room) as [r|]; [|done].
  by destruct (nonEmpty r && Map_has r (rooms st)).
Qed.

(** ** Invariants of the names *)

Lemma boot_namesTrimmed db0 : namesTrimmed (boot db0).
Proof. intros ws meta u Hget. done. Qed.

Lemma step_namesTrimmed st st' :
  step st st' → namesTrimmed st → namesTrimmed st'.
Proof.
  intros Hstep Hinv w meta' u Hget Hu.
  destruct Hstep as [isOpen st ws Hfresh|isOpen st ws [data| |] ts|isOpen st ws].
  - apply onConnection_meta in Hget as [Hget|[_ ->]]; [by eapply Hinv|done].
  - rewrite onRawMessage_parsed in Hget.
    apply onMessage_meta in Hget
      as [Hget|(-> & meta & Hget & _ & [Hsame|[s Hs]] & _)].
    + by eapply Hinv.
    + rewrite Hsame in Hu. by eapply Hinv.
    + rewrite Hs in Hu. injection Hu as <-. apply trim_idem.
  - by eapply Hinv.
  - rewrite onRawMessage_parsedNull in Hget. by eapply Hinv.
  - apply onClose_meta in Hget as [_ Hget]. by eapply Hinv.
Qed.

Lemma reachable_namesTrimmed st : reachable st → namesTrimmed st.
Proof.
  intros [db0 Hrun]. revert st Hrun.
  apply (rtc_ind_r namesTrimmed); [apply boot_namesTrimmed|].
  intros st1 st2 _ Hstep IH. by eapply step_namesTrimmed.
Qed.

(** ** Direct messages *)

Lemma on_dm_state isOpen st ws name data ts to :
  trim (toString (js_or (d_to data) (JStr ""))) = to →
  nonEmpty to = true →
  let m := mkDmMsg name to (toString (js_or (d_text data) (JStr ""))) ts in
  (on_dm isOpen st ws name data ts).1 =
    mkServer (clients st) (rooms st) (nextUserId st)
      (mkDB (db_rooms (file st))
         (<[dmKey name to := pushCapped m (dmLog (dmKey name to) (file st))]>
            (db_dms (file st)))).
Proof. intros Hto Hne. unfold on_dm. by rewrite Hto, Hne. Qed.

Lemma dm_to_display_name (B : string) :
  nonEmpty B = true → trim B = B →
  trim (toString (js_or (JStr B) (JStr ""))) = B.
Proof. intros Hne Htrim. unfold js_or. cbn [truthy]. by rewrite Hne. Qed.

(** C4. In a reachable state let two logged-in sessions carry the display
    names [A] and [B].  A [dm] frame from the first with [to = B] and a [dm]
    frame from the second with [to = A] write to one and the same key of
    [db.dms], which is both [dmKey A B] and [dmKey B A]: each call replaces
    the log under that key by the old log with its message pushed, and when
    the second call follows the first the log holds both messages.  The key
    function is symmetric, so the HTTP lookup finds that log whichever name
    comes first in the path. *)
Theorem dm_key_is_direction_independent
    isOpen st wa wb ma mb A B da db tsa tsb :
  reachable st →
  Map_get wa (clients st) = Some ma →
  m_username ma = Some A → nonEmpty A = true →
  Map_get wb (clients st) = Some mb →
  m_username mb = Some B → nonEmpty B = true →
  d_type da = JStr "dm" → d_to da = JStr B →
  d_type db = JStr "dm" → d_to db = JStr A →
  let msgA := mkDmMsg A B (toString (js_or (d_text da) (JStr ""))) tsa in
  let msgB := mkDmMsg B A (toString (js_or (d_text db) (JStr ""))) tsb in
  let sa := (onMessage isOpen st wa da tsa).1 in
  let sb := (onMessage isOpen st wb db tsb).1 in
  let sab := (onMessage isOpen sa wb db tsb).1 in
  ∃ key,
    key = dmKey A B ∧ key = dmKey B A
    ∧ db_dms (file sa)
        = <[key := pushCapped msgA (dmLog key (file st))]> (db_dms (file st))
    ∧ db_dms (file sb)
        = <[key := pushCapped msgB (dmLog key (file st))]> (db_dms (file st))
    ∧ db_dms (file sab) !! key
        = Some (pushCapped msgB (pushCapped msgA (dmLog key (file st))))
    ∧ get_dm sab A B = get_dm sab B A
    ∧ (∀ a b, dmKey a b = dmKey b a).
Proof.
  intros Hreach Hwa HA HneA Hwb HB HneB HtyA HtoA HtyB HtoB
    msgA msgB sa sb sab.
  pose proof (reachable_namesTrimmed st Hreach) as Htrim.
  assert (HtA : trim A = A) by exact (Htrim wa ma A Hwa HA).
  assert (HtB : trim B = B) by exact (Htrim wb mb B Hwb HB).
  assert (Hsa : sa = mkServer (clients st) (rooms st) (nextUserId st)
             (mkDB (db_rooms (file st))
                (<[dmKey A B := pushCapped msgA (dmLog (dmKey A B) (file st))]>
                   (db_dms (file st))))).
  { subst sa.
    rewrite (onMessage_dm isOpen st wa ma A da tsa Hwa HA HneA HtyA).
    apply on_dm_state; [|done]. rewrite HtoA. by apply dm_to_display_name. }
  assert (Hsb : sb = mkServer (clients st) (rooms st) (nextUserId st)
             (mkDB (db_rooms (file st))
                (<[dmKey B A := pushCapped msgB (dmLog (dmKey B A) (file st))]>
                   (db_dms (file st))))).
  { subst sb.
    rewrite (onMessage_dm isOpen st wb mb B db tsb Hwb HB HneB HtyB).
    apply on_dm_state; [|done]. rewrite HtoB. by apply dm_to_display_name. }
  assert (Hsab : sab = mkServer (clients sa) (rooms sa) (nextUserId sa)
             (mkDB (db_rooms (file sa))
                (<[dmKey B A := pushCapped msgB (dmLog (dmKey B A) (file sa))]>
                   (db_dms (file sa))))).
  { subst sab.
    assert (Hwb' : Map_get wb (clients sa) = Some mb) by (by rewrite Hsa).
    rewrite (onMessage_dm isOpen sa wb mb B db tsb Hwb' HB HneB HtyB).
    apply on_dm_state; [|done]. rewrite HtoB. by apply dm_to_display_name. }
  exists (dmKey A B). split_and!.
  - done.
  - apply dmKey_sym.
  - by rewrite Hsa.
  - rewrite Hsb. cbn [file db_dms]. by rewrite (dmKey_sym B A).
  - rewrite Hsab. cbn [file db_dms]. rewrite (dmKey_sym B A).
    rewrite lookup_insert_eq. unfold dmLog at 1. rewrite Hsa.
    cbn [file db_dms]. by rewrite lookup_insert_eq.
  - unfold get_dm. by rewrite (dmKey_sym B A).
  - apply dmKey_sym.
Qed.

(** alice writes to bob, then bob answers: one log, two messages. *)
Lemma dm_key_is_direction_independent_witness :
  let sa := (onMessage allOpen run_alice_bob 1
               (dm_frame (JStr "bob") (JStr "hey")) 10).1 in
  let sab := (onMessage allOpen sa 2
                (dm_frame (JStr "alice") (JStr "yo")) 11).1 in
  ∃ key,
    key = "alice|bob"
    ∧ key = dmKey "bob" "alice"
    ∧ db_dms (file sab) !! key
        = Some [mkDmMsg "alice" "bob" "hey" 10; mkDmMsg "bob" "alice" "yo" 11].
Proof.
  intros sa sab.
  assert (H1 : Map_get 1 (clients run_alice_bob)
               = Some (mkMeta 1 (Some "alice") (Some "lobby") false))
    by (vm_compute; reflexivity).
  assert (H2 : Map_get 2 (clients run_alice_bob)
               = Some (mkMeta 2 (Some "bob") (Some "lobby") false))
    by (vm_compute; reflexivity).
  destruct (dm_key_is_direction_independent allOpen run_alice_bob 1 2
              (mkMeta 1 (Some "alice") (Some "lobby") false)
              (mkMeta 2 (Some "bob") (Some "lobby") false)
              "alice" "bob"
              (dm_frame (JStr "bob") (JStr "hey"))
              (dm_frame (JStr "alice") (JStr "yo")) 10 11
              reachable_run_alice_bob H1 eq_refl eq_refl H2 eq_refl eq_refl
              eq_refl eq_refl eq_refl eq_refl)
    as (key & Hk1 & Hk2 & _ & _ & Hlog & _).
  exists key. split_and!; [by rewrite Hk1 | exact Hk2 |].
  subst sa sab. rewrite Hlog, Hk1. vm_compute. reflexivity.
Defined.

(** ** Logging in again after a room change *)

Lemma reachable_run_alice_relogin : reachable run_alice_relogin.
Proof. do 2 apply reachable_message. apply reachable_run_alice. Qed.

(** C1. The agreement fails after a second [login]: alice logs in, joins
    the room general and logs in again.  The [login] branch adds her socket
    to the lobby and sets her [room] to the lobby, but, unlike [join_room],
    it does not take the socket out of the Set of the room she was in; her
    socket stays in the Set of general, which her [room] field no longer
    names. *)
Theorem relogin_breaks_room_agreement :
  reachable run_alice_relogin
  ∧ Map_get 1 (clients run_alice_relogin)
      = Some (mkMeta 1 (Some "alice") (Some "lobby") false)
  ∧ rooms run_alice_relogin = [("lobby", [1]); ("general", [1])]
  ∧ member run_alice_relogin 1 "general"
  ∧ ¬ consistent run_alice_relogin.
Proof.
  assert (Hget : Map_get 1 (clients run_alice_relogin)
                 = Some (mkMeta 1 (Some "alice") (Some "lobby") false))
    by (vm_compute; reflexivity).
  assert (Hmem : member run_alice_relogin 1 "general").
  { exists [1]. split; [vm_compute; reflexivity|]. apply list_elem_of_here. }
  split_and!; [apply reachable_run_alice_relogin|exact Hget| |exact Hmem|].
  - vm_compute. reflexivity.
  - intros Hcons. apply (Hcons 1 _ Hget "general") in Hmem. discriminate Hmem.
Qed.

(** C5. The claim fails when the session changed room between the two
    logins: before the second [login] alice's socket is in the Set of
    general only, after it the socket is in two Sets, the lobby's and
    general's. *)
Theorem relogin_leaves_two_memberships :
  reachable run_alice_relogin
  ∧ memberships run_alice_general 1 = ["general"]
  ∧ memberships run_alice_relogin 1 = ["lobby"; "general"].
Proof.
  split_and!; [apply reachable_run_alice_relogin|by vm_compute..].
Qed.

(** ** Room Sets under the registry updates *)

Lemma ensureRoom_has r0 rs : is_Some (Map_get r0 (ensureRoom r0 rs)).
Proof.
  unfold ensureRoom. destruct (Map_has r0 rs) eqn:E.
  - by apply Map_has_true.
  - rewrite Map_get_set_eq. by eexists.
Qed.

Lemma inRoom_ensureRoom r0 rs w r :
  inRoom (ensureRoom r0 rs) w r ↔ inRoom rs w r.
Proof.
  unfold ensureRoom. destruct (Map_has r0 rs) eqn:E; [done|].
  assert (Hnone : Map_get r0 rs = None).
  { unfold Map_has in E. by destruct (Map_get r0 rs). }
  unfold inRoom. destruct (decide (r0 = r)) as [<-|Hne].
  - rewrite Map_get_set_eq, Hnone. split; intros (s & Hs & Hw); [|done].
    injection Hs as <-. by apply elem_of_nil in Hw.
  - by rewrite Map_get_set_ne.
Qed.

Lemma inRoom_roomAdd r0 w0 rs w r :
  is_Some (Map_get r0 rs) →
  inRoom (roomAdd r0 w0 rs) w r ↔ (r = r0 ∧ w = w0) ∨ inRoom rs w r.
Proof.
  intros [s0 Hs0]. unfold roomAdd, inRoom. rewrite Hs0.
  destruct (decide (r0 = r)) as [<-|Hne].
  - rewrite Map_get_set_eq, Hs0. split.
    + intros (s & [= <-] & Hw). apply elem_of_Set_add in Hw as [->|Hw].
      * by left.
      * right. by exists s0.
    + intros [[_ ->]|(s & [= <-] & Hw)];
        (eexists; split; [done|]); apply elem_of_Set_add; auto.
  - rewrite Map_get_set_ne by done. split; [by right|].
    intros [[-> _]|H0]; done.
Qed.

Lemma inRoom_roomDelete r0 w0 rs w r :
  inRoom (roomDelete r0 w0 rs) w r ↔ inRoom rs w r ∧ ¬ (r = r0 ∧ w = w0).
Proof.
  unfold roomDelete, inRoom.
  destruct (Map_get r0 rs) as [s0|] eqn:Hs0.
  - destruct (decide (r0 = r)) as [<-|Hne].
    + rewrite Map_get_set_eq, Hs0. split.
      * intros (s & [= <-] & Hw). apply elem_of_Set_delete in Hw as [Hne Hw].
        split; [by exists s0|]. by intros [_ ->].
      * intros [(s & [= <-] & Hw) Hnot]. eexists; split; [done|].
        apply elem_of_Set_delete. split; [|done]. intros ->. by apply Hnot.
    + rewrite Map_get_set_ne by done. split; [|by intros [? _]].
      intros H0. split; [done|]. by intros [-> _].
  - split; [|by intros [? _]].
    intros (s & Hs & Hw). split; [by exists s|].
    intros [-> _]. by rewrite Hs0 in Hs.
Qed.

(** ** The agreement of [room] fields and room Sets *)

Lemma consistent_same st st' :
  clients st' = clients st →
  (∀ w r, inRoom (rooms st') w r ↔ inRoom (rooms st) w r) →
  consistent st → consistent st'.
Proof.
  intros Hc Hr Hcons w meta Hget r. unfold member. rewrite Hr.
  rewrite Hc in Hget. by apply Hcons.
Qed.

Lemma consistent_update st ws meta' rs' n f :
  consistent st →
  (∀ w r, w ≠ ws → inRoom rs' w r ↔ inRoom (rooms st) w r) →
  (∀ r, m_room meta' = Some r ↔ inRoom rs' ws r) →
  consistent (mkServer (Map_set ws meta' (clients st)) rs' n f).
Proof.
  intros Hcons Hother Hself w meta Hget r.
  unfold member. cbn [clients rooms] in *.
  destruct (decide (ws = w)) as [<-|Hne].
  - rewrite Map_get_set_eq in Hget. injection Hget as <-. apply Hself.
  - rewrite Map_get_set_ne in Hget by done.
    rewrite Hother by done. by apply Hcons.
Qed.

(** After the "leave previous room" step the caller's socket is in no room
    Set, and nothing changed for the other sockets. *)
Lemma leaveCurrent_inRoom isOpen st ws meta name w r :
  consistent st → roomNamesNonEmpty st →
  Map_get ws (clients st) = Some meta →
  inRoom (rooms (leaveCurrent isOpen st ws meta name).1) w r
  ↔ w ≠ ws ∧ inRoom (rooms st) w r.
Proof.
  intros Hcons Hnames Hget. rewrite leaveCurrent_rooms.
  pose proof (Hcons ws meta Hget) as Hws. unfold member in Hws.
  destruct (m_room meta) as [r0|] eqn:Hroom.
  - rewrite (Hnames ws meta r0 Hget Hroom).
    assert (Hin : inRoom (rooms st) ws r0) by (by apply Hws).
    assert (Hhas : Map_has r0 (rooms st) = true).
    { destruct Hin as (s & Hs & _). apply Map_has_true. by eexists. }
    rewrite Hhas. cbn [andb]. rewrite inRoom_roomDelete. split.
    + intros [Hin' Hnot]. split; [|done]. intros ->. apply Hnot.
      split; [|done]. apply Hws in Hin'. congruence.
    + intros [Hne Hin']. split; [done|]. by intros [_ ->].
  - split; [|by intros [_ ?]].
    intros Hin. split; [|done]. intros ->. by apply Hws in Hin.
Qed.

(** The message callback keeps the agreement, except for a [login] from a
    session that sits in a room other than the lobby. *)
Lemma onMessage_consistent isOpen st ws data ts :
  consistent st → roomNamesNonEmpty st →
  (strictEqStr (d_type data) "login" = true →
   ∀ meta, Map_get ws (clients st) = Some meta →
     m_room meta = None ∨ m_room meta = Some defaultRoom) →
  consistent (onMessage isOpen st ws data ts).1.
Proof.
  intros Hcons Hnames Hlobby.
  destruct (onMessage_dispatch isOpen st ws data ts)
    as [Hget|meta Hget Hlogin|meta Hget Hu|meta name Hget Hname Hne
       |meta name Hget Hname Hne|meta name Hget Hname Hne
       |meta name Hget Hname Hne|meta name Hget Hname Hne
       |meta name Hget Hname Hne|meta name Hget Hname Hne
       |meta name Hget Hname Hne]; try done.
  - rewrite on_login_state.
    pose proof (Hcons ws meta Hget) as Hws. unfold member in Hws.
    apply consistent_update; [done|..].
    + intros w r Hne.
      rewrite inRoom_roomAdd, inRoom_ensureRoom by apply ensureRoom_has.
      split; [|by right]. by intros [[_ ->]|].
    + intros r. rewrite inRoom_roomAdd, inRoom_ensureRoom
        by apply ensureRoom_has. cbn [m_room set_room]. split.
      * intros [= <-]. by left.
      * intros [[-> _]|Hin]; [done|]. apply Hws in Hin.
        destruct (Hlobby Hlogin meta Hget); congruence.
  - rewrite on_create_room_state.
    destruct (nonEmpty (trim (toString (d_room data)))); [|done].
    apply (consistent_same st); [done| |done].
    intros w r. cbn [rooms]. apply inRoom_ensureRoom.
  - rewrite on_join_room_state.
    destruct (nonEmpty (trim (toString (d_room data)))); [|done].
    apply consistent_update; [done|..].
    + intros w r Hw.
      rewrite inRoom_roomAdd, inRoom_ensureRoom by apply ensureRoom_has.
      rewrite (leaveCurrent_inRoom isOpen st ws meta name w r Hcons Hnames Hget).
      split; [|by right]. by intros [[_ ->]|[_ ?]].
    + intros r.
      rewrite inRoom_roomAdd, inRoom_ensureRoom by apply ensureRoom_has.
      rewrite (leaveCurrent_inRoom isOpen st ws meta name ws r Hcons Hnames Hget).
      cbn [m_room set_room]. split.
      * intros [= <-]. by left.
      * by intros [[-> _]|[? _]].
  - rewrite on_leave_room_state.
    apply consistent_update; [done|..].
    + intros w r Hw.
      rewrite (leaveCurrent_inRoom isOpen st ws meta name w r Hcons Hnames Hget).
      split; [by intros [_ ?]|done].
    + intros r.
      rewrite (leaveCurrent_inRoom isOpen st ws meta name ws r Hcons Hnames Hget).
      cbn [m_room set_room]. split; [done|by intros [? _]].
  - destruct (on_message_registries isOpen st ws meta name data ts) as [Hc Hr].
    apply (consistent_same st); [done| |done]. intros w r. by rewrite Hr.
  - destruct (on_dm_registries isOpen st ws name data ts) as [Hc Hr].
    apply (consistent_same st); [done| |done]. intros w r. by rewrite Hr.
  - rewrite on_typing_state.
    apply consistent_update; [done|done|].
    intros r. cbn [m_room set_typing]. by apply Hcons.
  - by rewrite on_history_state.
Qed.

Lemma isFresh_inRoom st ws r : isFresh st ws = true → ¬ inRoom (rooms st) ws r.
Proof.
  unfold isFresh. intros Hf (s & Hs & Hw).
  apply andb_true_iff in Hf as [_ Hall].
  rewrite forallb_forall in Hall.
  apply Map_get_elem_of, list_elem_of_In, Hall in Hs.
  cbn [snd] in Hs. apply negb_true_iff, bool_decide_eq_false in Hs. done.
Qed.

Lemma onConnection_consistent isOpen st ws :
  consistent st → isFresh st ws = true →
  consistent (onConnection isOpen st ws).1.
Proof.
  intros Hcons Hfresh. unfold onConnection. cbn [fst].
  apply consistent_update; [done|done|].
  intros r. cbn [m_room]. split; [done|].
  intros Hin. by apply isFresh_inRoom in Hin.
Qed.

Lemma onClose_consistent isOpen st ws :
  consistent st → consistent (onClose isOpen st ws).1.
Proof.
  intros Hcons w meta Hget r.
  apply onClose_meta in Hget as [Hne Hget].
  rewrite (Hcons w meta Hget r). unfold member, onClose. cbn [fst rooms].
  destruct (Map_get ws (clients st) ≫= m_room) as [r0|]; [|done].
  destruct (nonEmpty r0 && Map_has r0 (rooms st)); [|done].
  cbn [putRooms rooms]. rewrite inRoom_roomDelete.
  split; [|by intros [? _]]. intros Hin. split; [done|]. by intros [_ ->].
Qed.

(** ** Room names stay non-empty *)

Lemma step_roomNamesNonEmpty st st' :
  step st st' → roomNamesNonEmpty st → roomNamesNonEmpty st'.
Proof.
  intros Hstep Hinv w meta' r Hget Hr.
  destruct Hstep as [isOpen st ws Hfresh|isOpen st ws [data| |] ts|isOpen st ws].
  - apply onConnection_meta in Hget as [Hget|[_ ->]]; [by eapply Hinv|done].
  - rewrite onRawMessage_parsed in Hget.
    apply onMessage_meta in Hget
      as [Hget|(-> & meta & Hget & _ & _ & [Hsame|[Hnone|(r' & Hr' & Hne)]])].
    + by eapply Hinv.
    + rewrite Hsame in Hr. by eapply Hinv.
    + congruence.
    + congruence.
  - by eapply Hinv.
  - rewrite onRawMessage_parsedNull in Hget. by eapply Hinv.
  - apply onClose_meta in Hget as [_ Hget]. by eapply Hinv.
Qed.

Lemma reachable_roomNamesNonEmpty st : reachable st → roomNamesNonEmpty st.
Proof.
  intros [db0 Hrun]. revert st Hrun.
  apply (rtc_ind_r roomNamesNonEmpty); [by intros ws meta r Hget|].
  intros st1 st2 _ Hstep IH. by eapply step_roomNamesNonEmpty.
Qed.

(** ** Membership after a login *)

(** From a state where the agreement holds, a [login] by a session that is
    in no room or in the lobby leaves the socket in the lobby's Set and in
    no other. *)
Lemma login_single_membership isOpen st ws meta data ts :
  consistent st → roomNamesNonEmpty st →
  Map_get ws (clients st) = Some meta →
  m_room meta = None ∨ m_room meta = Some defaultRoom →
  d_type data = JStr "login" →
  let st' := (onMessage isOpen st ws data ts).1 in
  consistent st'
  ∧ (∃ meta', Map_get ws (clients st') = Some meta'
              ∧ m_room meta' = Some defaultRoom)
  ∧ ∀ r, member st' ws r ↔ r = defaultRoom.
Proof.
  intros Hcons Hnames Hget Hroom Hty st'.
  assert (Hcons' : consistent st').
  { apply onMessage_consistent; [done|done|].
    intros _ meta0 Hget0. congruence. }
  assert (Hmeta : ∃ meta', Map_get ws (clients st') = Some meta'
                           ∧ m_room meta' = Some defaultRoom).
  { subst st'. rewrite (onMessage_login isOpen st ws meta data ts Hget Hty).
    rewrite on_login_state. cbn [clients]. rewrite Map_get_set_eq.
    by eexists. }
  split_and!; [done|done|].
  destruct Hmeta as (meta' & Hget' & Hroom').
  intros r. rewrite <- (Hcons' ws meta' Hget' r). rewrite Hroom'.
  split; congruence.
Qed.

(** Two [login] frames in a row on one socket: still one membership. *)
Lemma login_twice_single_membership isOpen st ws meta d1 d2 t1 t2 :
  consistent st → roomNamesNonEmpty st →
  Map_get ws (clients st) = Some meta →
  m_room meta = None ∨ m_room meta = Some defaultRoom →
  d_type d1 = JStr "login" → d_type d2 = JStr "login" →
  let st1 := (onMessage isOpen st ws d1 t1).1 in
  let st2 := (onMessage isOpen st1 ws d2 t2).1 in
  (∀ r, member st1 ws r ↔ r = defaultRoom)
  ∧ (∀ r, member st2 ws r ↔ r = defaultRoom).
Proof.
  intros Hcons Hnames Hget Hroom Hty1 Hty2 st1 st2.
  destruct (login_single_membership isOpen st ws meta d1 t1
              Hcons Hnames Hget Hroom Hty1)
    as (Hcons1 & (meta1 & Hget1 & Hroom1) & Hmem1).
  split; [done|].
  assert (Hnames1 : roomNamesNonEmpty st1).
  { eapply step_roomNamesNonEmpty; [|done].
    apply (step_message isOpen st ws (parsed d1) t1). }
  by destruct (login_single_membership isOpen st1 ws meta1 d2 t2
                 Hcons1 Hnames1 Hget1 (or_intror Hroom1) Hty2)
    as (_ & _ & Hmem2).
Qed.

(** * Further properties of the callbacks *)

(** ** The branch taken, with the frame type *)

Lemma strictEqStr_true v lit : strictEqStr v lit = true ↔ v = JStr lit.
Proof.
  destruct v; simpl; try (split; [discriminate|congruence]).
  rewrite bool_decide_eq_true. split; congruence.
Qed.

Lemma onMessage_route isOpen st ws data ts :
  route isOpen st ws data ts (onMessage isOpen st ws data ts).
Proof.
  unfold onMessage, onMessage_outcome.
  destruct (Map_get ws (clients st)) as [meta|] eqn:Hget;
    [|by apply route_unregistered].
  destruct (strictEqStr (d_type data) "login") eqn:Hlogin;
    [apply strictEqStr_true in Hlogin; by apply route_login|].
  destruct (m_username meta) as [name|] eqn:Hname;
    [|by apply (route_gate _ _ _ _ _ meta); [| |rewrite Hname]].
  destruct (nonEmpty name) eqn:Hne; cbn [negb];
    [|by apply (route_gate _ _ _ _ _ meta); [| |rewrite Hname]].
  destruct (strictEqStr (d_type data) "create_room") eqn:H1;
    [apply strictEqStr_true in H1; by eapply route_create_room|].
  destruct (strictEqStr (d_type data) "join_room") eqn:H2;
    [apply strictEqStr_true in H2; by eapply route_join_room|].
  destruct (strictEqStr (d_type data) "leave_room") eqn:H3;
    [apply strictEqStr_true in H3; by eapply route_leave_room|].
  destruct (strictEqStr (d_type data) "message") eqn:H4;
    [apply strictEqStr_true in H4; by eapply route_message|].
  destruct (strictEqStr (d_type data) "dm") eqn:H5;
    [apply strictEqStr_true in H5; by eapply route_dm|].
  destruct (strictEqStr (d_type data) "typing") eqn:H6;
    [apply strictEqStr_true in H6; by eapply route_typing|].
  destruct (strictEqStr (d_type data) "history") eqn:H7;
    [apply strictEqStr_true in H7; by eapply route_history|].
  eapply route_unknown; [done..|].
  intros t Ht. unfold knownTypes in Ht.
  repeat (apply elem_of_cons in Ht as [->|Ht]; [done|]).
  by apply elem_of_nil in Ht.
Qed.

Ltac by_route isOpen st ws data ts :=
  destruct (onMessage_route isOpen st ws data ts)
    as [Hget|meta Hget Hty|meta Hget Hty Hu|meta name Hget Hname Hne Hty
       |meta name Hget Hname Hne Hty|meta name Hget Hname Hne Hty
       |meta name Hget Hname Hne Hty|meta name Hget Hname Hne Hty
       |meta name Hget Hname Hne Hty|meta name Hget Hname Hne Hty
       |meta name Hget Hname Hne Hty].

(** ** Frames go to open sockets only *)

Lemma targetsOpen_app isOpen a b :
  targetsOpen isOpen a → targetsOpen isOpen b → targetsOpen isOpen (a ++ b).
Proof. unfold targetsOpen. intros Ha Hb. by apply Forall_app. Qed.

Lemma targetsOpen_nil isOpen : targetsOpen isOpen [].
Proof. by apply Forall_nil. Qed.

Lemma targetsOpen_safeSend isOpen ws obj :
  targetsOpen isOpen (safeSend isOpen ws obj).
Proof.
  unfold targetsOpen, safeSend. destruct (isOpen ws) eqn:E.
  - by apply Forall_singleton.
  - by apply Forall_nil.
Qed.

Lemma targetsOpen_sendEach isOpen targets obj :
  targetsOpen isOpen (sendEach isOpen targets obj).
Proof.
  induction targets as [|w targets IH]; [apply targetsOpen_nil|].
  unfold sendEach. simpl.
  apply targetsOpen_app; [apply targetsOpen_safeSend | exact IH].
Qed.

Lemma targetsOpen_broadcastToRoom isOpen st room obj :
  targetsOpen isOpen (broadcastToRoom isOpen st room obj).
Proof.
  unfold broadcastToRoom. destruct room; try apply targetsOpen_nil.
  destruct (Map_get s (rooms st)); [|apply targetsOpen_nil].
  apply targetsOpen_sendEach.
Qed.

Lemma targetsOpen_broadcastToAll isOpen st obj :
  targetsOpen isOpen (broadcastToAll isOpen st obj).
Proof. apply targetsOpen_sendEach. Qed.

Lemma targetsOpen_leaveCurrent isOpen st ws meta name :
  targetsOpen isOpen (leaveCurrent isOpen st ws meta name).2.
Proof.
  unfold leaveCurrent. destruct (m_room meta) as [r|];
    [|apply targetsOpen_nil].
  destruct (nonEmpty r && Map_has r (rooms st)); [|apply targetsOpen_nil].
  apply targetsOpen_broadcastToRoom.
Qed.

Ltac targets_open :=
  solve [ repeat first
    [ apply targetsOpen_nil
    | apply targetsOpen_safeSend
    | apply targetsOpen_broadcastToRoom
    | apply targetsOpen_broadcastToAll
    | apply targetsOpen_leaveCurrent
    | apply targetsOpen_sendEach
    | apply targetsOpen_app ] ].

(** X1. Whatever the callback (connection, message, close) and whatever the
    frame, no frame is ever written to a socket that is not OPEN: every
    send goes through [safeSend]. *)
Theorem frames_reach_open_sockets_only isOpen st ws raw ts :
  targetsOpen isOpen (onConnection isOpen st ws).2
  ∧ targetsOpen isOpen (onRawMessage isOpen st ws raw ts).2
  ∧ targetsOpen isOpen (onClose isOpen st ws).2.
Proof.
  split_and!.
  - unfold onConnection. cbn [snd]. targets_open.
  - destruct raw as [data| |];
      [|apply targetsOpen_nil
       |rewrite onRawMessage_parsedNull; apply targetsOpen_nil].
    rewrite onRawMessage_parsed.
    by_route isOpen st ws data ts;
      try (cbn [snd]; first [apply targetsOpen_nil|apply targetsOpen_safeSend]).
    + unfold on_login. cbn [snd]. targets_open.
    + unfold on_create_room.
      destruct (negb (nonEmpty (trim (toString (d_room data)))));
        cbn [snd]; targets_open.
    + unfold on_join_room, on_join_room_outcome.
      destruct (negb (nonEmpty (trim (toString (d_room data)))));
        [apply targetsOpen_nil|].
      pose proof (targetsOpen_leaveCurrent isOpen st ws meta name) as Hl.
      destruct (leaveCurrent isOpen st ws meta name) as [st1 out1].
      cbn [snd] in *.
      destruct (roomsGet _ _); cbn [fst snd]; [|done..].
      apply targetsOpen_app; [done|]. targets_open.
    + unfold on_leave_room.
      pose proof (targetsOpen_leaveCurrent isOpen st ws meta name) as Hl.
      destruct (leaveCurrent isOpen st ws meta name) as [st1 out1].
      cbn [snd] in *. apply targetsOpen_app; [done|]. targets_open.
    + unfold on_message, on_message_outcome.
      destruct (negb (truthy (js_or (d_room data) (ofRoom (m_room meta)))));
        [cbn [fst snd]; targets_open|].
      destruct (orEmpty _); cbn [fst snd]; targets_open.
    + unfold on_dm.
      destruct (negb (nonEmpty (trim (toString (js_or (d_to data) (JStr ""))))));
        cbn [snd]; [apply targetsOpen_nil|].
      apply targetsOpen_app; [|targets_open].
      destruct (findByName _ _); targets_open.
    + unfold on_typing. cbn [snd]. targets_open.
    + unfold on_history. destruct (truthy (d_room data)); cbn [snd];
        targets_open.
  - unfold onClose. cbn [snd]. apply targetsOpen_app; [targets_open|].
    destruct (truthyOpt _); targets_open.
Qed.

(** ** Frames that are dropped, and exceptions *)

Lemma on_message_completion isOpen st ws meta name data ts :
  let room := js_or (d_room data) (ofRoom (m_room meta)) in
  (on_message_outcome isOpen st ws meta name data ts).2 = Throws
  ↔ truthy room = true ∧ readsPrototype (toString room) (file st) = true.
Proof.
  intros room. destruct (truthy room) eqn:Htruthy.
  - destruct (readsPrototype (toString room) (file st)) eqn:Hreads.
    + by rewrite (on_message_throws isOpen st ws meta name data ts room
                    eq_refl Htruthy Hreads).
    + rewrite (on_message_resolved isOpen st ws meta name data ts room
                 eq_refl Htruthy Hreads).
      cbn [snd]. split; [done|by intros [_ ?]].
  - unfold on_message_outcome. fold room. rewrite Htruthy. cbn [negb snd].
    split; [done|by intros [? _]].
Qed.

Lemma on_join_room_completion isOpen st ws meta name data :
  let room := trim (toString (d_room data)) in
  (on_join_room_outcome isOpen st ws meta name data).2 = Throws
  ↔ nonEmpty room = true ∧ readsPrototype room (file st) = true.
Proof.
  intros room. destruct (nonEmpty room) eqn:Hr.
  - destruct (readsPrototype room (file st)) eqn:Hreads.
    + by rewrite (on_join_room_throws isOpen st ws meta name data room
                    eq_refl Hr Hreads).
    + rewrite (on_join_room_resolved isOpen st ws meta name data room
                 eq_refl Hr Hreads).
      cbn [snd]. split; [done|by intros [_ ?]].
  - unfold on_join_room_outcome. fold room. rewrite Hr. cbn [negb snd].
    split; [done|by intros [? _]].
Qed.

Lemma leaveCurrent_notifications isOpen st ws meta name w obj :
  (w, obj) ∈ (leaveCurrent isOpen st ws meta name).2 →
  ∃ text, obj = notification text.
Proof.
  unfold leaveCurrent. destruct (m_room meta) as [r|];
    [|intros Hin; by apply elem_of_nil in Hin].
  destruct (nonEmpty r && Map_has r (rooms st));
    [|intros Hin; by apply elem_of_nil in Hin].
  cbn [snd]. rewrite broadcastToRoom_str. intros Hin.
  apply elem_of_sendEach in Hin as (_ & _ & ->). by eexists.
Qed.

(** When the message callback ends by an exception. *)
Lemma onMessage_outcome_throws isOpen st ws data ts :
  (onMessage_outcome isOpen st ws data ts).2 = Throws
  ↔ ∃ meta name,
      Map_get ws (clients st) = Some meta
      ∧ m_username meta = Some name ∧ nonEmpty name = true
      ∧ ((d_type data = JStr "message"
          ∧ truthy (js_or (d_room data) (ofRoom (m_room meta))) = true
          ∧ readsPrototype
              (toString (js_or (d_room data) (ofRoom (m_room meta))))
              (file st) = true)
         ∨ (d_type data = JStr "join_room"
            ∧ nonEmpty (trim (toString (d_room data))) = true
            ∧ readsPrototype (trim (toString (d_room data))) (file st)
              = true)).
Proof.
  split.
  - unfold onMessage_outcome.
    destruct (Map_get ws (clients st)) as [meta|] eqn:Hget; [|done].
    destruct (strictEqStr (d_type data) "login"); [done|].
    destruct (m_username meta) as [name|] eqn:Hname; [|done].
    destruct (nonEmpty name) eqn:Hne; cbn [negb]; [|done].
    destruct (strictEqStr (d_type data) "create_room"); [done|].
    destruct (strictEqStr (d_type data) "join_room") eqn:Hjoin.
    { intros Hthrows. apply on_join_room_completion in Hthrows.
      apply strictEqStr_true in Hjoin. exists meta, name.
      split_and!; try done. by right. }
    destruct (strictEqStr (d_type data) "leave_room"); [done|].
    destruct (strictEqStr (d_type data) "message") eqn:Hmsg.
    { intros Hthrows. apply on_message_completion in Hthrows.
      apply strictEqStr_true in Hmsg. exists meta, name.
      split_and!; try done. by left. }
    destruct (strictEqStr (d_type data) "dm"); [done|].
    destruct (strictEqStr (d_type data) "typing"); [done|].
    by destruct (strictEqStr (d_type data) "history").
  - intros (meta & name & Hget & Hname & Hne & [(Hty & H)|(Hty & H)]);
      unfold onMessage_outcome; rewrite Hget, Hty, Hname, Hne; cbn.
    + by apply on_message_completion.
    + by apply on_join_room_completion.
Qed.

(** X2. How the message callback can end without doing its work.  For
    frames whose fields are absent, [null], booleans or strings, it ends by
    an uncaught exception in exactly three cases, all on a registered
    socket: the frame is the JSON value [null]; a logged-in session sends
    [message] and the room key reads an inherited value from the store; a
    logged-in session sends [join_room] and the trimmed room name reads an
    inherited value.  An exception never changes the store or the id
    counter, and the only frames sent before it are notifications.  A frame
    that [JSON.parse] rejects, any frame on a socket that is not in
    [clients], and a frame of a type the callback does not know from a
    logged-in session are dropped: the callback returns, nothing changes,
    nothing is sent. *)
Theorem message_callback_exceptions isOpen st ws raw ts :
  let o := onRawMessage_outcome isOpen st ws raw ts in
  (o.2 = Throws ↔
     ∃ meta,
       Map_get ws (clients st) = Some meta
       ∧ (raw = parsedNull
          ∨ ∃ data name,
              raw = parsed data
              ∧ m_username meta = Some name ∧ nonEmpty name = true
              ∧ ((d_type data = JStr "message"
                  ∧ truthy (js_or (d_room data) (ofRoom (m_room meta))) = true
                  ∧ readsPrototype
                      (toString (js_or (d_room data) (ofRoom (m_room meta))))
                      (file st) = true)
                 ∨ (d_type data = JStr "join_room"
                    ∧ nonEmpty (trim (toString (d_room data))) = true
                    ∧ readsPrototype (trim (toString (d_room data)))
                        (file st) = true))))
  ∧ (o.2 = Throws →
       file o.1.1 = file st
       ∧ nextUserId o.1.1 = nextUserId st
       ∧ ∀ w obj, (w, obj) ∈ o.1.2 → ∃ text, obj = notification text)
  ∧ (raw = unparsable ∨ Map_get ws (clients st) = None →
       o = (st, [], Returns))
  ∧ (∀ data meta name,
       raw = parsed data →
       Map_get ws (clients st) = Some meta →
       m_username meta = Some name → nonEmpty name = true →
       (∀ t, t ∈ knownTypes → strictEqStr (d_type data) t = false) →
       o = (st, [], Returns)).
Proof.
  intros o. subst o. split_and!.
  - destruct raw as [data| |]; cbn [onRawMessage_outcome].
    + rewrite onMessage_outcome_throws. split.
      * intros (meta & name & Hget & Hname & Hne & H).
        exists meta. split; [done|]. right. by exists data, name.
      * intros (meta & Hget & [Hraw|(d & name & [= <-] & Hname & Hne & H)]);
          [done|]. by exists meta, name.
    + split; [done|]. by intros (meta & _ & [?|(d & name & ? & _)]).
    + destruct (Map_get ws (clients st)) as [meta|] eqn:Hget.
      * split; [|done]. intros _. exists meta. split; [done|by left].
      * split; [done|]. by intros (meta & ? & _).
  - destruct raw as [data| |]; cbn [onRawMessage_outcome].
    + intros Hthrows.
      apply onMessage_outcome_throws in Hthrows
        as (meta & name & Hget & Hname & Hne & [(Hty & Ht & Hr)|(Hty & Ht & Hr)]);
        unfold onMessage_outcome; rewrite Hget, Hty, Hname, Hne; cbn.
      * rewrite (on_message_throws isOpen st ws meta name data ts _
                   eq_refl Ht Hr).
        cbn [fst snd]. split_and!; try done.
        intros w obj Hin. by apply elem_of_nil in Hin.
      * rewrite (on_join_room_throws isOpen st ws meta name data _
                   eq_refl Ht Hr).
        cbn [fst snd file nextUserId]. split_and!; try done.
        intros w obj. apply leaveCurrent_notifications.
    + done.
    + destruct (Map_get ws (clients st)); [|done].
      intros _. cbn [fst snd]. split_and!; try done.
      intros w obj Hin. by apply elem_of_nil in Hin.
  - intros [->|Hnone]; [done|].
    destruct raw as [data| |]; cbn [onRawMessage_outcome]; [|done|].
    + unfold onMessage_outcome. by rewrite Hnone.
    + by rewrite Hnone.
  - intros data meta name -> Hget Hname Hne Hunknown.
    cbn [onRawMessage_outcome]. unfold onMessage_outcome.
    rewrite Hget, Hname, Hne. cbn [negb].
    rewrite !Hunknown; [done|unfold knownTypes; set_solver..].
Qed.

(** On alice's socket: the frame [null], a frame that does not parse, and
    a frame of type ping. *)
Lemma message_callback_exceptions_witness :
  (onRawMessage_outcome allOpen run_alice 1 parsedNull 3).2 = Throws
  ∧ onRawMessage_outcome allOpen run_alice 1 unparsable 3
    = (run_alice, [], Returns)
  ∧ onRawMessage_outcome allOpen run_alice 1 (parsed (frame "ping")) 3
    = (run_alice, [], Returns).
Proof.
  destruct (message_callback_exceptions allOpen run_alice 1 parsedNull 3)
    as (Hiff & _ & _).
  destruct (message_callback_exceptions allOpen run_alice 1 unparsable 3)
    as (_ & _ & Hdrop & _).
  destruct (message_callback_exceptions allOpen run_alice 1
              (parsed (frame "ping")) 3) as (_ & _ & _ & Hunknown).
  split_and!.
  - apply Hiff. exists (mkMeta 1 (Some "alice") (Some "lobby") false).
    split; [vm_compute; reflexivity|by left].
  - apply Hdrop. by left.
  - apply (Hunknown (frame "ping")
             (mkMeta 1 (Some "alice") (Some "lobby") false) "alice");
      try reflexivity.
    intros t Ht. unfold knownTypes in Ht.
    repeat (apply elem_of_cons in Ht as [->|Ht]; [reflexivity|]).
    by apply elem_of_nil in Ht.
Defined.

(** ** Session ids *)

Lemma onMessage_nextUserId isOpen st ws data ts :
  nextUserId (onMessage isOpen st ws data ts).1 = nextUserId st.
Proof.
  by_route isOpen st ws data ts; try done.
  - rewrite on_create_room_state.
    by destruct (nonEmpty (trim (toString (d_room data)))).
  - rewrite on_join_room_state.
    by destruct (nonEmpty (trim (toString (d_room data)))).
  - by rewrite on_leave_room_state.
  - by destruct (on_message_state isOpen st ws meta name data ts)
      as [->|(k & m & ->)].
  - unfold on_dm.
    by destruct (negb (nonEmpty (trim (toString (js_or (d_to data) (JStr "")))))).
  - by rewrite on_history_state.
Qed.

Lemma onClose_nextUserId isOpen st ws :
  nextUserId (onClose isOpen st ws).1 = nextUserId st.
Proof.
  unfold onClose. cbn [fst nextUserId].
  destruct (Map_get ws (clients st) ≫= m_room) as [r|]; [|done].
  by destruct (nonEmpty r && Map_has r (rooms st)).
Qed.

Lemma step_ids st st' :
  step st st' →
  idsBelowCounter st ∧ idsDistinct st →
  idsBelowCounter st' ∧ idsDistinct st'.
Proof.
  intros Hstep [Hbelow Hdist].
  destruct Hstep as [isOpen st ws Hfresh|isOpen st ws [data| |] ts|isOpen st ws].
  - split.
    + intros w meta Hget. cbn [onConnection fst nextUserId].
      apply onConnection_meta in Hget as [Hget|[_ ->]].
      * apply Hbelow in Hget. lia.
      * cbn. lia.
    + intros w1 w2 m1 m2 H1 H2 Hid.
      apply onConnection_meta in H1 as [H1|[-> ->]];
        apply onConnection_meta in H2 as [H2|[-> ->]]; try done.
      * by eapply Hdist.
      * apply Hbelow in H1. cbn in Hid. lia.
      * apply Hbelow in H2. cbn in Hid. lia.
  - rewrite onRawMessage_parsed. split.
    + intros w meta' Hget. rewrite onMessage_nextUserId.
      apply onMessage_meta in Hget as [Hget|(-> & meta & Hget & Hid & _)].
      * by apply Hbelow in Hget.
      * rewrite Hid. by apply Hbelow in Hget.
    + intros w1 w2 m1 m2 H1 H2 Hid.
      apply onMessage_meta in H1 as [H1|(-> & meta1 & H1 & Hid1 & _)];
        apply onMessage_meta in H2 as [H2|(-> & meta2 & H2 & Hid2 & _)];
        try done.
      * by eapply Hdist.
      * eapply Hdist; [done..|]. congruence.
      * eapply Hdist; [done..|]. congruence.
  - done.
  - by rewrite onRawMessage_parsedNull.
  - split.
    + intros w meta Hget. rewrite onClose_nextUserId.
      apply onClose_meta in Hget as [_ Hget]. by apply Hbelow in Hget.
    + intros w1 w2 m1 m2 H1 H2 Hid.
      apply onClose_meta in H1 as [_ H1]. apply onClose_meta in H2 as [_ H2].
      by eapply Hdist.
Qed.

(** X3. Session ids come from a counter that only grows: in every
    reachable state each session's id is below [nextUserId], and two
    different sockets never have the same id, so the generated names
    [UserN] of two live sessions differ. *)
Theorem session_ids_are_unique st :
  reachable st →
  idsBelowCounter st ∧ idsDistinct st
  ∧ ∀ w1 w2 m1 m2,
      Map_get w1 (clients st) = Some m1 → Map_get w2 (clients st) = Some m2 →
      w1 ≠ w2 →
      "User" +:+ pretty (m_id m1) ≠ "User" +:+ pretty (m_id m2).
Proof.
  intros [db0 Hrun].
  assert (Hinv : idsBelowCounter st ∧ idsDistinct st).
  { revert st Hrun.
    apply (rtc_ind_r (λ s, idsBelowCounter s ∧ idsDistinct s)).
    - split; [by intros ws meta Hget|by intros w1 w2 m1 m2 H1].
    - intros st1 st2 _ Hstep IH. by eapply step_ids. }
  destruct Hinv as [Hbelow Hdist]. split_and!; [done|done|].
  intros w1 w2 m1 m2 H1 H2 Hne Heq. apply Hne.
  apply (Hdist w1 w2 m1 m2 H1 H2).
  cbn [String.append] in Heq. injection Heq as Heq.
  by apply pretty_nat_inj.
Qed.

Lemma session_ids_are_unique_witness :
  idsBelowCounter run_alice_bob ∧ idsDistinct run_alice_bob.
Proof.
  destruct (session_ids_are_unique run_alice_bob reachable_run_alice_bob)
    as (Hb & Hd & _).
  by split.
Defined.

(** ** How the registries are rebuilt *)

Section JsMapKeys.
Context {K V : Type} `{EqDecision K}.
Implicit Types (k : K) (v : V) (m : list (K * V)).

Lemma Map_has_keys k m : Map_has k m = true ↔ k ∈ Map_keys m.
Proof.
  unfold Map_has, Map_keys. induction m as [|[k' v'] m IH]; simpl.
  - split; [done|]. intros Hin. by apply elem_of_nil in Hin.
  - rewrite elem_of_cons. destruct (decide (k = k')) as [->|Hne].
    + split; [by left|done].
    + rewrite IH. split; [by right|]. by intros [?|?].
Qed.

Lemma Map_keys_set k v m :
  Map_keys (Map_set k v m) =
    if Map_has k m then Map_keys m else Map_keys m ++ [k].
Proof.
  unfold Map_has, Map_keys. induction m as [|[k' v'] m IH]; simpl; [done|].
  destruct (decide (k = k')) as [->|Hne]; simpl; [done|].
  rewrite IH. by destruct (Map_get k m).
Qed.

Lemma Map_set_fresh k v m : Map_get k m = None → Map_set k v m = m ++ [(k, v)].
Proof.
  induction m as [|[k' v'] m IH]; simpl; [done|].
  destruct (decide (k = k')); [done|]. intros Hnone. by rewrite IH.
Qed.

Lemma Map_keys_set_NoDup k v m :
  NoDup (Map_keys m) → NoDup (Map_keys (Map_set k v m)).
Proof.
  intros Hnd. rewrite Map_keys_set. destruct (Map_has k m) eqn:E; [done|].
  apply NoDup_app. split_and!; [done| |apply NoDup_singleton].
  intros x Hx Hx'. apply list_elem_of_singleton in Hx' as ->.
  apply Map_has_keys in Hx. congruence.
Qed.

Lemma Map_keys_delete_elem k k' m :
  k' ∈ Map_keys (Map_delete k m) ↔ k' ≠ k ∧ k' ∈ Map_keys m.
Proof.
  unfold Map_keys. induction m as [|[k0 v0] m IH]; simpl.
  - split; [|by intros [_ ?]]. intros Hin. by apply elem_of_nil in Hin.
  - destruct (decide (k = k0)) as [->|Hne]; simpl.
    + rewrite IH, elem_of_cons. split; [by intros [? ?]; auto|].
      intros [Hne [->|Hin]]; done.
    + rewrite !elem_of_cons, IH. split.
      * intros [->|[? ?]]; auto.
      * intros [Hk [->|Hin]]; auto.
Qed.

Lemma Map_keys_delete_NoDup k m :
  NoDup (Map_keys m) → NoDup (Map_keys (Map_delete k m)).
Proof.
  unfold Map_keys. induction m as [|[k0 v0] m IH]; simpl; [done|].
  rewrite NoDup_cons. intros [Hnin Hnd].
  destruct (decide (k = k0)); simpl; [by apply IH|].
  apply NoDup_cons. split; [|by apply IH].
  intros Hin. apply Map_keys_delete_elem in Hin as [_ Hin]. done.
Qed.
End JsMapKeys.

(** A property of the room Map that the three room updates keep holds
    after the message callback and after the close callback. *)
Lemma onMessage_rooms_closed (P : list (string * list Ws) → Prop)
    isOpen st ws data ts :
  (∀ r rs, P rs → P (ensureRoom r rs)) →
  (∀ r w rs, P rs → P (roomAdd r w rs)) →
  (∀ r w rs, P rs → P (roomDelete r w rs)) →
  P (rooms st) → P (rooms (onMessage isOpen st ws data ts).1).
Proof.
  intros Hens Hadd Hdel HP.
  assert (Hleave : ∀ meta name,
            P (rooms (leaveCurrent isOpen st ws meta name).1)).
  { intros meta name. rewrite leaveCurrent_rooms.
    destruct (m_room meta) as [r|]; [|done].
    destruct (nonEmpty r && Map_has r (rooms st)); [by apply Hdel|done]. }
  by_route isOpen st ws data ts; try done.
  - rewrite on_login_state. cbn [rooms]. by apply Hadd, Hens.
  - rewrite on_create_room_state.
    destruct (nonEmpty (trim (toString (d_room data)))); [|done].
    cbn [rooms]. by apply Hens.
  - rewrite on_join_room_state.
    destruct (nonEmpty (trim (toString (d_room data)))); [|done].
    cbn [rooms]. apply Hadd, Hens, Hleave.
  - rewrite on_leave_room_state. cbn [rooms]. apply Hleave.
  - by destruct (on_message_registries isOpen st ws meta name data ts)
      as [_ ->].
  - by destruct (on_dm_registries isOpen st ws name data ts) as [_ ->].
  - by rewrite on_history_state.
Qed.

Lemma onClose_rooms_closed (P : list (string * list Ws) → Prop)
    isOpen st ws :
  (∀ r w rs, P rs → P (roomDelete r w rs)) →
  P (rooms st) → P (rooms (onClose isOpen st ws).1).
Proof.
  intros Hdel HP. unfold onClose. cbn [fst rooms].
  destruct (Map_get ws (clients st) ≫= m_room) as [r|]; [|done].
  destruct (nonEmpty r && Map_has r (rooms st)); [|done].
  cbn [putRooms rooms]. by apply Hdel.
Qed.

Lemma step_rooms_closed (P : list (string * list Ws) → Prop) st st' :
  (∀ r rs, P rs → P (ensureRoom r rs)) →
  (∀ r w rs, P rs → P (roomAdd r w rs)) →
  (∀ r w rs, P rs → P (roomDelete r w rs)) →
  step st st' → P (rooms st) → P (rooms st').
Proof.
  intros Hens Hadd Hdel Hstep HP.
  destruct Hstep as [isOpen st ws Hfresh|isOpen st ws [data| |] ts|isOpen st ws].
  - done.
  - rewrite onRawMessage_parsed. by apply onMessage_rooms_closed.
  - done.
  - by rewrite onRawMessage_parsedNull.
  - by apply onClose_rooms_closed.
Qed.

(** The same for [clients] and the message callback: the only update is an
    assignment to the caller's record. *)
Lemma onMessage_clients_closed (P : list (Ws * Meta) → Prop)
    isOpen st ws data ts :
  (∀ meta' cs, P cs → P (Map_set ws meta' cs)) →
  P (clients st) → P (clients (onMessage isOpen st ws data ts).1).
Proof.
  intros Hset HP.
  by_route isOpen st ws data ts; try done.
  - rewrite on_login_state. cbn [clients]. by apply Hset.
  - rewrite on_create_room_state.
    by destruct (nonEmpty (trim (toString (d_room data)))).
  - rewrite on_join_room_state.
    destruct (nonEmpty (trim (toString (d_room data)))); [|done].
    cbn [clients]. by apply Hset.
  - rewrite on_leave_room_state. cbn [clients]. by apply Hset.
  - by destruct (on_message_registries isOpen st ws meta name data ts)
      as [-> _].
  - by destruct (on_dm_registries isOpen st ws name data ts) as [-> _].
  - rewrite on_typing_state. cbn [clients]. by apply Hset.
  - by rewrite on_history_state.
Qed.

Lemma onClose_clients isOpen st ws :
  clients (onClose isOpen st ws).1 = Map_delete ws (clients st).
Proof.
  unfold onClose. cbn [fst clients].
  destruct (Map_get ws (clients st) ≫= m_room) as [r|]; [|done].
  by destruct (nonEmpty r && Map_has r (rooms st)).
Qed.

(** ** Rooms are never removed *)

Lemma ensureRoom_keys r rs :
  Map_keys rs `prefix_of` Map_keys (ensureRoom r rs).
Proof.
  unfold ensureRoom. destruct (Map_has r rs) eqn:E; [done|].
  rewrite Map_keys_set, E. by apply prefix_app_r.
Qed.

Lemma roomAdd_keys r w rs : Map_keys (roomAdd r w rs) = Map_keys rs.
Proof.
  unfold roomAdd. destruct (Map_get r rs) as [s|] eqn:E; [|done].
  rewrite Map_keys_set. unfold Map_has. by rewrite E.
Qed.

Lemma roomDelete_keys r w rs : Map_keys (roomDelete r w rs) = Map_keys rs.
Proof.
  unfold roomDelete. destruct (Map_get r rs) as [s|] eqn:E; [|done].
  rewrite Map_keys_set. unfold Map_has. by rewrite E.
Qed.

(** X4. A room, once in the directory, stays there for the life of the
    process, at the same position of the room list, whether or not it has
    members: along any run the list served by [GET /rooms] (and sent in
    [room_list] frames) only grows at its end. *)
Theorem rooms_are_never_removed st st' :
  rtc step st st' →
  get_rooms st `prefix_of` get_rooms st'
  ∧ ∀ r, Map_has r (rooms st) = true → Map_has r (rooms st') = true.
Proof.
  intros Hrun.
  assert (Hpre : get_rooms st `prefix_of` get_rooms st').
  { unfold get_rooms. induction Hrun as [st|st1 st2 st3 Hstep _ IH]; [done|].
    etrans; [|exact IH].
    apply (step_rooms_closed
             (λ rs, Map_keys (rooms st1) `prefix_of` Map_keys rs) st1 st2);
      try done.
    - intros r rs Hp. etrans; [exact Hp|apply ensureRoom_keys].
    - intros r w rs Hp. by rewrite roomAdd_keys.
    - intros r w rs Hp. by rewrite roomDelete_keys. }
  split; [done|].
  intros r Hr. apply Map_has_keys. apply Map_has_keys in Hr.
  destruct Hpre as [k Hk]. unfold get_rooms in Hk. rewrite Hk.
  apply elem_of_app. by left.
Qed.

(** alice leaves the lobby: the lobby is empty and still listed. *)
Lemma rooms_are_never_removed_witness :
  get_rooms run_alice `prefix_of` get_rooms run_alice_left
  ∧ Map_get "lobby" (rooms run_alice_left) = Some [].
Proof.
  assert (Hrun : rtc step run_alice run_alice_left).
  { apply rtc_once.
    apply (step_message allOpen run_alice 1 (parsed (frame "leave_room")) 1). }
  destruct (rooms_are_never_removed run_alice run_alice_left Hrun) as [Hp _].
  split; [exact Hp|]. vm_compute. reflexivity.
Defined.

(** ** One copy per recipient *)

Lemma Set_add_NoDup {A} `{EqDecision A} (x : A) s :
  NoDup s → NoDup (Set_add x s).
Proof.
  intros Hnd. unfold Set_add. destruct (decide (x ∈ s)); [done|].
  apply NoDup_app. split_and!; [done| |apply NoDup_singleton].
  intros y Hy Hy'. by apply list_elem_of_singleton in Hy' as ->.
Qed.

Lemma Set_delete_NoDup {A} `{EqDecision A} (x : A) s :
  NoDup s → NoDup (Set_delete x s).
Proof. intros Hnd. unfold Set_delete. by apply NoDup_filter. Qed.

Lemma setsNoDup_set r s rs :
  NoDup s → setsNoDup rs → setsNoDup (Map_set r s rs).
Proof.
  intros Hs Hrs r' s' Hget. destruct (decide (r = r')) as [<-|Hne].
  - rewrite Map_get_set_eq in Hget. by injection Hget as <-.
  - rewrite Map_get_set_ne in Hget by done. by eapply Hrs.
Qed.

Lemma setsNoDup_ensureRoom r rs : setsNoDup rs → setsNoDup (ensureRoom r rs).
Proof.
  intros Hrs. unfold ensureRoom. destruct (Map_has r rs); [done|].
  apply setsNoDup_set; [apply NoDup_nil_2|done].
Qed.

Lemma setsNoDup_roomAdd r w rs : setsNoDup rs → setsNoDup (roomAdd r w rs).
Proof.
  intros Hrs. unfold roomAdd. destruct (Map_get r rs) as [s|] eqn:E; [|done].
  apply setsNoDup_set; [|done]. apply Set_add_NoDup. by eapply Hrs.
Qed.

Lemma setsNoDup_roomDelete r w rs :
  setsNoDup rs → setsNoDup (roomDelete r w rs).
Proof.
  intros Hrs. unfold roomDelete. destruct (Map_get r rs) as [s|] eqn:E; [|done].
  apply setsNoDup_set; [|done]. apply Set_delete_NoDup. by eapply Hrs.
Qed.

Lemma sendEach_NoDup isOpen targets obj :
  NoDup targets → NoDup (sendEach isOpen targets obj).
Proof.
  induction targets as [|w targets IH]; [intros _; apply NoDup_nil_2|].
  rewrite NoDup_cons. intros [Hnin Hnd].
  change (sendEach isOpen (w :: targets) obj)
    with (safeSend isOpen w obj ++ sendEach isOpen targets obj).
  apply NoDup_app. split_and!; [| |by apply IH].
  - unfold safeSend. destruct (isOpen w);
      [apply NoDup_singleton|apply NoDup_nil_2].
  - intros [w' o] Hin Hin'. unfold safeSend in Hin.
    destruct (isOpen w); [|by apply elem_of_nil in Hin].
    apply list_elem_of_singleton in Hin. injection Hin as -> ->.
    by apply elem_of_sendEach in Hin' as [Hin' _].
Qed.

Lemma step_registries_NoDup st st' :
  step st st' →
  NoDup (Map_keys (clients st)) ∧ NoDup (Map_keys (rooms st))
    ∧ setsNoDup (rooms st) →
  NoDup (Map_keys (clients st')) ∧ NoDup (Map_keys (rooms st'))
    ∧ setsNoDup (rooms st').
Proof.
  intros Hstep (Hc & Hr & Hs). split_and!.
  - destruct Hstep
      as [isOpen st ws Hfresh|isOpen st ws [data| |] ts|isOpen st ws].
    + cbn [onConnection fst clients]. by apply Map_keys_set_NoDup.
    + rewrite onRawMessage_parsed.
      apply (onMessage_clients_closed (λ cs, NoDup (Map_keys cs)));
        [|done].
      intros meta' cs Hcs. by apply Map_keys_set_NoDup.
    + done.
    + by rewrite onRawMessage_parsedNull.
    + rewrite onClose_clients. by apply Map_keys_delete_NoDup.
  - apply (step_rooms_closed (λ rs, NoDup (Map_keys rs)) st st'); try done.
    + intros r rs Hrs. unfold ensureRoom. destruct (Map_has r rs); [done|].
      by apply Map_keys_set_NoDup.
    + intros r w rs Hrs. by rewrite roomAdd_keys.
    + intros r w rs Hrs. by rewrite roomDelete_keys.
  - apply (step_rooms_closed setsNoDup st st'); try done.
    + apply setsNoDup_ensureRoom.
    + apply setsNoDup_roomAdd.
    + apply setsNoDup_roomDelete.
Qed.

(** X5. In every reachable state no socket is listed twice in [clients] or
    in a room Set and no room is listed twice, so a broadcast, to all or to
    a room, hands each recipient one copy of the frame. *)
Theorem broadcasts_send_one_copy st :
  reachable st →
  NoDup (Map_keys (clients st))
  ∧ NoDup (get_rooms st)
  ∧ setsNoDup (rooms st)
  ∧ (∀ isOpen obj, NoDup (broadcastToAll isOpen st obj))
  ∧ (∀ isOpen room obj, NoDup (broadcastToRoom isOpen st room obj)).
Proof.
  intros [db0 Hrun].
  assert (Hinv : NoDup (Map_keys (clients st)) ∧ NoDup (Map_keys (rooms st))
                 ∧ setsNoDup (rooms st)).
  { revert st Hrun.
    apply (rtc_ind_r (λ s, NoDup (Map_keys (clients s))
                           ∧ NoDup (Map_keys (rooms s))
                           ∧ setsNoDup (rooms s))).
    - split_and!; [apply NoDup_nil_2..|by intros r s Hget].
    - intros st1 st2 _ Hstep IH. by eapply step_registries_NoDup. }
  destruct Hinv as (Hc & Hr & Hs). split_and!; try done.
  - intros isOpen obj. by apply sendEach_NoDup.
  - intros isOpen room obj. unfold broadcastToRoom.
    destruct room; try apply NoDup_nil_2.
    destruct (Map_get s (rooms st)) as [members|] eqn:E;
      [|apply NoDup_nil_2].
    apply sendEach_NoDup. by eapply Hs.
Qed.

Lemma broadcasts_send_one_copy_witness :
  NoDup (broadcastToRoom allOpen run_alice_bob (JStr "lobby")
           (notification "hello")).
Proof.
  destruct (broadcasts_send_one_copy run_alice_bob reachable_run_alice_bob)
    as (_ & _ & _ & _ & Hroom).
  apply Hroom.
Defined.

(** ** The store along a run *)

(** A property of the store kept by its three updates (ensuring a room
    log, pushing a room message, pushing a direct message) holds after the
    message callback. *)
Lemma onMessage_file_closed (P : DB → Prop) isOpen st ws data ts :
  (∀ r db, P db → P (ensureRoomLog r db)) →
  (∀ k m db, P db →
     P (mkDB (<[k := pushCapped m (roomLog k db)]> (db_rooms db)) (db_dms db))) →
  (∀ k m db, P db →
     P (mkDB (db_rooms db) (<[k := pushCapped m (dmLog k db)]> (db_dms db)))) →
  P (file st) → P (file (onMessage isOpen st ws data ts).1).
Proof.
  intros Hens Hroom Hdm HP.
  by_route isOpen st ws data ts; try done.
  - rewrite on_login_state. cbn [file]. by apply Hens.
  - rewrite on_create_room_state.
    destruct (nonEmpty (trim (toString (d_room data)))); [|done].
    cbn [file]. by apply Hens.
  - rewrite on_join_room_state.
    destruct (nonEmpty (trim (toString (d_room data)))); [|done].
    cbn [file]. by apply Hens.
  - by rewrite on_leave_room_state.
  - destruct (on_message_state isOpen st ws meta name data ts)
      as [->|(k & m & ->)]; [done|].
    cbn [file]. by apply Hroom.
  - unfold on_dm.
    destruct (negb (nonEmpty (trim (toString (js_or (d_to data) (JStr ""))))));
      [done|].
    cbn [fst writeDB file]. by apply Hdm.
  - by rewrite on_history_state.
Qed.

Lemma onClose_file isOpen st ws : file (onClose isOpen st ws).1 = file st.
Proof.
  unfold onClose. cbn [fst file].
  destruct (Map_get ws (clients st) ≫= m_room) as [r|]; [|done].
  by destruct (nonEmpty r && Map_has r (rooms st)).
Qed.

Lemma step_file_closed (P : DB → Prop) st st' :
  (∀ r db, P db → P (ensureRoomLog r db)) →
  (∀ k m db, P db →
     P (mkDB (<[k := pushCapped m (roomLog k db)]> (db_rooms db)) (db_dms db))) →
  (∀ k m db, P db →
     P (mkDB (db_rooms db) (<[k := pushCapped m (dmLog k db)]> (db_dms db)))) →
  step st st' → P (file st) → P (file st').
Proof.
  intros Hens Hroom Hdm Hstep HP.
  destruct Hstep as [isOpen st ws Hfresh|isOpen st ws [data| |] ts|isOpen st ws].
  - done.
  - rewrite onRawMessage_parsed. by apply onMessage_file_closed.
  - done.
  - by rewrite onRawMessage_parsedNull.
  - by rewrite onClose_file.
Qed.

Lemma pushCapped_le {A} (m : A) (log : list A) :
  length log ≤ 2000 → length (pushCapped m log) ≤ 2000.
Proof.
  intros Hle. unfold pushCapped. rewrite length_app. simpl.
  destruct (Nat.ltb_spec 2000 (length log + 1));
    [|rewrite length_app; simpl; lia].
  destruct log; simpl in *; [lia|]. rewrite length_app. simpl. lia.
Qed.

Lemma capped_ensureRoomLog r db : capped db → capped (ensureRoomLog r db).
Proof.
  intros [Hr Hd].
  destruct (ensureRoomLog_cases r db) as [->|[E ->]]; [done|]. split; [|done].
  intros k log. cbn [db_rooms]. rewrite lookup_insert.
  case_decide; [intros [= <-]; simpl; lia | apply Hr].
Qed.

Lemma capped_push_room k m db :
  capped db →
  capped (mkDB (<[k := pushCapped m (roomLog k db)]> (db_rooms db)) (db_dms db)).
Proof.
  intros [Hr Hd]. split; [|done].
  intros k' log. cbn [db_rooms]. rewrite lookup_insert.
  case_decide; [|apply Hr]. intros [= <-]. apply pushCapped_le.
  unfold roomLog. destruct (db_rooms db !! k) eqn:E; simpl; [|lia].
  by eapply Hr.
Qed.

Lemma capped_push_dm k m db :
  capped db →
  capped (mkDB (db_rooms db) (<[k := pushCapped m (dmLog k db)]> (db_dms db))).
Proof.
  intros [Hr Hd]. split; [done|].
  intros k' log. cbn [db_dms]. rewrite lookup_insert.
  case_decide; [|apply Hd]. intros [= <-]. apply pushCapped_le.
  unfold dmLog. destruct (db_dms db !! k) eqn:E; simpl; [|lia].
  by eapply Hd.
Qed.

Lemma keysKept_refl db : keysKept db db.
Proof. by split. Qed.

Lemma keysKept_insert_room db0 db k log :
  keysKept db0 db → keysKept db0 (mkDB (<[k := log]> (db_rooms db)) (db_dms db)).
Proof.
  intros [Hr Hd]. split; [|done]. intros k' Hk'. cbn [db_rooms].
  rewrite lookup_insert. case_decide; [by eexists|by apply Hr].
Qed.

Lemma keysKept_insert_dm db0 db k log :
  keysKept db0 db → keysKept db0 (mkDB (db_rooms db) (<[k := log]> (db_dms db))).
Proof.
  intros [Hr Hd]. split; [done|]. intros k' Hk'. cbn [db_dms].
  rewrite lookup_insert. case_decide; [by eexists|by apply Hd].
Qed.

Lemma keysKept_ensureRoomLog db0 db r :
  keysKept db0 db → keysKept db0 (ensureRoomLog r db).
Proof.
  intros Hk. destruct (ensureRoomLog_cases r db) as [->|[E ->]]; [done|].
  by apply keysKept_insert_room.
Qed.

Lemma rtc_step_boot_alice_bob : rtc step (boot emptyDB) run_alice_bob.
Proof.
  eapply rtc_l; [by apply (step_connect allOpen (boot emptyDB) 1)|].
  eapply rtc_l;
    [apply (step_message allOpen _ 1 (parsed (login_frame (JStr "alice"))) 0)|].
  eapply rtc_l; [by apply (step_connect allOpen _ 2)|].
  apply rtc_once.
  apply (step_message allOpen _ 2 (parsed (login_frame (JStr "bob"))) 1).
Qed.

(** X6. The retention cap is an invariant of the store: if no log of
    [messages.json] is longer than 2000 entries at some point of a run, no
    log is longer than 2000 entries at any later point.  Along the way no
    key of the store, room or direct-message pair, is ever removed. *)
Theorem retention_cap_is_invariant st st' :
  rtc step st st' →
  capped (file st) →
  capped (file st') ∧ keysKept (file st) (file st').
Proof.
  intros Hrun Hcap. split.
  - induction Hrun as [st|st1 st2 st3 Hstep _ IH]; [done|]. apply IH.
    apply (step_file_closed capped st1 st2); try done.
    + apply capped_ensureRoomLog.
    + apply capped_push_room.
    + apply capped_push_dm.
  - clear Hcap. induction Hrun as [st|st1 st2 st3 Hstep _ IH];
      [apply keysKept_refl|].
    assert (H12 : keysKept (file st1) (file st2)).
    { apply (step_file_closed (keysKept (file st1)) st1 st2);
        [intros r db; apply keysKept_ensureRoomLog
        |intros k m db; apply keysKept_insert_room
        |intros k m db; apply keysKept_insert_dm
        |done
        |apply keysKept_refl]. }
    destruct H12 as [Hr Hd], IH as [Hr' Hd']. split; eauto.
Qed.

Lemma retention_cap_is_invariant_witness :
  capped (file run_alice_bob) ∧ keysKept emptyDB (file run_alice_bob).
Proof.
  apply (retention_cap_is_invariant (boot emptyDB) run_alice_bob
           rtc_step_boot_alice_bob).
  split; intros k log Hk; cbn in Hk; by rewrite lookup_empty in Hk.
Defined.

(** X7. Stored logs are changed by their own frame type only: a frame whose
    [type] is not ["message"] leaves every existing room log as it is (it
    can at most add an empty log for a new room), and a frame whose [type]
    is not ["dm"] leaves the direct-message part of the store untouched.
    The session counter is never changed by a frame. *)
Theorem logs_change_with_their_frame_type_only isOpen st ws data ts :
  let st' := (onMessage isOpen st ws data ts).1 in
  (d_type data ≠ JStr "message" →
     ∀ k log, db_rooms (file st) !! k = Some log →
              db_rooms (file st') !! k = Some log)
  ∧ (d_type data ≠ JStr "dm" → db_dms (file st') = db_dms (file st))
  ∧ nextUserId st' = nextUserId st.
Proof.
  intros st'. subst st'.
  assert (Hens : ∀ r k log,
            db_rooms (file st) !! k = Some log →
            db_rooms (ensureRoomLog r (file st)) !! k = Some log).
  { intros r k log Hk. by apply ensureRoomLog_keeps. }
  assert (Hensd : ∀ r, db_dms (ensureRoomLog r (file st)) = db_dms (file st)).
  { intros r. apply ensureRoomLog_dms. }
  split_and!; [| |apply onMessage_nextUserId].
  - intros Hnot k log Hk.
    by_route isOpen st ws data ts; try done.
    + rewrite on_login_state. cbn [file]. by apply Hens.
    + rewrite on_create_room_state.
      destruct (nonEmpty (trim (toString (d_room data)))); [|done].
      cbn [file]. by apply Hens.
    + rewrite on_join_room_state.
      destruct (nonEmpty (trim (toString (d_room data)))); [|done].
      cbn [file]. by apply Hens.
    + by rewrite on_leave_room_state.
    + unfold on_dm.
      by destruct (negb (nonEmpty (trim (toString (js_or (d_to data) (JStr "")))))).
    + by rewrite on_history_state.
  - intros Hnot.
    by_route isOpen st ws data ts; try done.
    + rewrite on_login_state. cbn [file]. apply Hensd.
    + rewrite on_create_room_state.
      destruct (nonEmpty (trim (toString (d_room data)))); [|done].
      cbn [file]. apply Hensd.
    + rewrite on_join_room_state.
      destruct (nonEmpty (trim (toString (d_room data)))); [|done].
      cbn [file]. apply Hensd.
    + by rewrite on_leave_room_state.
    + by destruct (on_message_state isOpen st ws meta name data ts)
        as [->|(k & m & ->)].
    + by rewrite on_history_state.
Qed.

Lemma logs_change_with_their_frame_type_only_witness :
  db_rooms (file (onMessage allOpen run_full 1
                    (room_frame "join_room" (JStr "general")) 3).1) !! "lobby"
    = Some (replicate 2000 (mkRoomMsg "old" "x" 0))
  ∧ db_dms (file (onMessage allOpen run_full 1
                    (message_frame JUndefined (JStr "hi")) 3).1)
    = db_dms (file run_full).
Proof.
  destruct (logs_change_with_their_frame_type_only allOpen run_full 1
              (room_frame "join_room" (JStr "general")) 3) as (Hr & _ & _).
  destruct (logs_change_with_their_frame_type_only allOpen run_full 1
              (message_frame JUndefined (JStr "hi")) 3) as (_ & Hd & _).
  split.
  - apply Hr; [discriminate|]. vm_compute. reflexivity.
  - apply Hd. discriminate.
Defined.

(** ** Presence *)

Lemma elem_of_usersList cs e :
  e ∈ usersList cs ↔
  ∃ w meta, (w, meta) ∈ cs
            ∧ m_username meta = Some (ue_username e)
            ∧ nonEmpty (ue_username e) = true
            ∧ m_room meta = ue_room e.
Proof.
  unfold usersList, Map_values. rewrite list_elem_of_omap. split.
  - intros (meta & Hin & He). apply list_elem_of_fmap in Hin as ([w m] & -> & Hin).
    exists w, m. cbn [snd] in He. unfold userEntry in He.
    destruct (m_username m) as [u|] eqn:Hu; [|done].
    destruct (nonEmpty u) eqn:Hne; [|done].
    injection He as <-. by cbn.
  - intros (w & meta & Hin & Hu & Hne & Hr). exists meta. split.
    + apply list_elem_of_fmap. by exists (w, meta).
    + unfold userEntry. rewrite Hu, Hne, Hr. by destruct e.
Qed.

Lemma Map_get_keys {K V} `{EqDecision K} (k : K) (v : V) m :
  Map_get k m = Some v → k ∈ Map_keys m.
Proof. intros Hget. apply Map_has_keys. unfold Map_has. by rewrite Hget. Qed.

(** X8. The presence list, as broadcast and as served by [GET /users],
    holds exactly the sessions with a non-empty display name, each with its
    current room; a socket that has only connected is not in it, so a new
    connection leaves the list as it was. *)
Theorem presence_lists_named_sessions_only isOpen st ws :
  Map_get ws (clients st) = None →
  get_users (onConnection isOpen st ws).1 = get_users st
  ∧ (∀ e, e ∈ get_users st ↔
       ∃ w meta, (w, meta) ∈ clients st
                 ∧ m_username meta = Some (ue_username e)
                 ∧ nonEmpty (ue_username e) = true
                 ∧ m_room meta = ue_room e).
Proof.
  intros Hnone. split; [|intros e; apply elem_of_usersList].
  unfold get_users, onConnection. cbn [fst clients].
  rewrite (Map_set_fresh _ _ _ Hnone). unfold usersList, Map_values.
  rewrite fmap_app, omap_app. cbn. by rewrite app_nil_r.
Qed.

Lemma presence_lists_named_sessions_only_witness :
  get_users run_three = [mkUserEntry "alice" (Some "lobby");
                         mkUserEntry "bob" (Some "lobby")].
Proof.
  destruct (presence_lists_named_sessions_only allOpen run_alice_bob 3 eq_refl)
    as [Hsame _].
  unfold run_three. rewrite Hsame. vm_compute. reflexivity.
Defined.

(** ** The reply to a login *)



(** ** Creating a room *)

Lemma ensureRoom_idem r rs : ensureRoom r (ensureRoom r rs) = ensureRoom r rs.
Proof.
  unfold ensureRoom at 1.
  destruct (ensureRoom_has r rs) as [s Hs]. unfold Map_has. by rewrite Hs.
Qed.

Lemma ensureRoomLog_has r db :
  readsPrototype r db = false → is_Some (db_rooms (ensureRoomLog r db) !! r).
Proof.
  intros Hreads. pose proof (roomsGet_ensureRoomLog r db Hreads) as Hlog.
  unfold roomsGet in Hlog.
  destruct (db_rooms (ensureRoomLog r db) !! r); [by eexists|].
  by destruct (inherited r).
Qed.

Lemma ensureRoomLog_idem r db :
  ensureRoomLog r (ensureRoomLog r db) = ensureRoomLog r db.
Proof.
  destruct (readsPrototype r db) eqn:Hreads.
  - by rewrite !(ensureRoomLog_readsPrototype _ _ Hreads).
  - unfold ensureRoomLog at 1.
    by rewrite (roomsGet_ensureRoomLog _ _ Hreads).
Qed.

(** X10. [create_room] with a name that is not empty after trimming makes
    the room known to the directory without touching what is there:
    sessions, room members, and stored logs stay as they are (an existing
    room keeps its members and its history).  The store gets a log of its
    own for the room, except when the name reads an inherited value: then
    the guard [!db.rooms[room]] is false, the store is written back as it
    was, and the room is in the directory with no log in the store.  Every
    open socket gets the new room list, and sending the same frame again
    changes nothing. *)
Theorem create_room_keeps_what_exists
    isOpen st ws meta name data ts ts' room :
  Map_get ws (clients st) = Some meta →
  m_username meta = Some name → nonEmpty name = true →
  d_type data = JStr "create_room" →
  trim (toString (d_room data)) = room →
  nonEmpty room = true →
  let st' := (onMessage isOpen st ws data ts).1 in
  clients st' = clients st
  ∧ room ∈ get_rooms st'
  ∧ (readsPrototype room (file st) = false →
       is_Some (db_rooms (file st') !! room))
  ∧ (readsPrototype room (file st) = true →
       file st' = file st ∧ db_rooms (file st') !! room = None)
  ∧ (∀ w r, inRoom (rooms st') w r ↔ inRoom (rooms st) w r)
  ∧ (∀ k log, db_rooms (file st) !! k = Some log →
              db_rooms (file st') !! k = Some log)
  ∧ db_dms (file st') = db_dms (file st)
  ∧ (onMessage isOpen st ws data ts).2
      = sendEach isOpen (Map_keys (clients st)) (room_list (get_rooms st'))
  ∧ (onMessage isOpen st' ws data ts').1 = st'.
Proof.
  intros Hget Hname Hne Hty Hroom Hr st'.
  assert (Hst : st' = mkServer (clients st) (ensureRoom room (rooms st))
                        (nextUserId st) (ensureRoomLog room (file st))).
  { subst st'.
    rewrite (onMessage_create_room isOpen st ws meta name data ts
               Hget Hname Hne Hty).
    rewrite on_create_room_state, Hroom. by rewrite Hr. }
  split_and!.
  - by rewrite Hst.
  - rewrite Hst. unfold get_rooms. cbn [rooms].
    destruct (ensureRoom_has room (rooms st)) as [s Hs].
    by eapply Map_get_keys.
  - intros Hreads. rewrite Hst. cbn [file]. by apply ensureRoomLog_has.
  - intros Hreads. rewrite Hst. cbn [file].
    rewrite (ensureRoomLog_readsPrototype _ _ Hreads).
    split; [done|]. by apply readsPrototype_throws in Hreads as (_ & ? & _).
  - intros w r. rewrite Hst. cbn [rooms]. apply inRoom_ensureRoom.
  - intros k log Hk. rewrite Hst. cbn [file]. by apply ensureRoomLog_keeps.
  - rewrite Hst. cbn [file]. apply ensureRoomLog_dms.
  - subst st'.
    rewrite (onMessage_create_room isOpen st ws meta name data ts
               Hget Hname Hne Hty).
    unfold on_create_room. rewrite Hroom, Hr. done.
  - assert (Hget' : Map_get ws (clients st') = Some meta) by (by rewrite Hst).
    rewrite (onMessage_create_room isOpen st' ws meta name data ts'
               Hget' Hname Hne Hty).
    rewrite on_create_room_state, Hroom, Hr. rewrite Hst at 1 2 3 4.
    cbn [clients rooms nextUserId file].
    by rewrite ensureRoom_idem, ensureRoomLog_idem.
Qed.

(** alice creates the lobby a second time: bob is not thrown out.  Then
    she creates a room called constructor: it is listed, and the store has
    no log for it. *)
Lemma create_room_keeps_what_exists_witness :
  let st' := (onMessage allOpen run_alice_bob 1
                (room_frame "create_room" (JStr " lobby")) 5).1 in
  let st2 := (onMessage allOpen run_alice_bob 1
                (room_frame "create_room" (JStr "constructor")) 5).1 in
  st' = run_alice_bob
  ∧ (onMessage allOpen run_alice_bob 1
       (room_frame "create_room" (JStr " lobby")) 5).2
    = [(1, room_list ["lobby"]); (2, room_list ["lobby"])]
  ∧ is_Some (db_rooms (file st') !! "lobby")
  ∧ get_rooms st2 = ["lobby"; "constructor"]
  ∧ file st2 = file run_alice_bob
  ∧ db_rooms (file st2) !! "constructor" = None.
Proof.
  intros st' st2.
  assert (H1 : Map_get 1 (clients run_alice_bob)
               = Some (mkMeta 1 (Some "alice") (Some "lobby") false))
    by (vm_compute; reflexivity).
  destruct (create_room_keeps_what_exists allOpen run_alice_bob 1
              (mkMeta 1 (Some "alice") (Some "lobby") false) "alice"
              (room_frame "create_room" (JStr " lobby")) 5 6 "lobby"
              H1 eq_refl eq_refl eq_refl eq_refl eq_refl)
    as (_ & _ & Hown & _ & _ & _ & _ & Hout & _).
  destruct (create_room_keeps_what_exists allOpen run_alice_bob 1
              (mkMeta 1 (Some "alice") (Some "lobby") false) "alice"
              (room_frame "create_room" (JStr "constructor")) 5 6 "constructor"
              H1 eq_refl eq_refl eq_refl eq_refl eq_refl)
    as (_ & _ & _ & Hproto & _).
  destruct (Hproto eq_refl) as [Hfile Hnone].
  split_and!; [vm_compute; reflexivity| |by apply Hown|vm_compute; reflexivity
              |exact Hfile|exact Hnone].
  rewrite Hout. vm_compute. reflexivity.
Defined.

(** ** Changing room *)

(** The frames of the "leave previous room" step: the other members of the
    room that is left are told, the leaver is not. *)
Lemma leaveCurrent_out isOpen st ws meta name :
  consistent st → roomNamesNonEmpty st →
  Map_get ws (clients st) = Some meta →
  (leaveCurrent isOpen st ws meta name).2 =
    match m_room meta with
    | Some r0 =>
        sendEach isOpen (Set_delete ws (default [] (Map_get r0 (rooms st))))
          (notification (name +:+ " left " +:+ r0))
    | None => []
    end.
Proof.
  intros Hcons Hnames Hget. unfold leaveCurrent.
  destruct (m_room meta) as [r0|] eqn:Hroom; [|done].
  rewrite (Hnames ws meta r0 Hget Hroom).
  destruct (proj1 (Hcons ws meta Hget r0) Hroom) as (s & Hs & Hin).
  unfold Map_has. rewrite Hs. cbn [andb snd].
  rewrite broadcastToRoom_str. cbn [putRooms rooms].
  unfold roomDelete. rewrite Hs, Map_get_set_eq. done.
Qed.

(** X11. From a state where the [room] fields and the room Sets agree,
    [join_room] with a name that is not empty after trimming moves the
    session: afterwards its [room] is the new room and its socket is in
    that room's Set and in no other, while the memberships of all other
    sockets are unchanged and the agreement still holds.  When the name
    reads no inherited value from the store the callback returns and the
    frames are, in order: the "left" notification to the remaining members
    of the old room (never to the caller), the new room's last 200 messages
    to the caller, the "joined" notification to the members of the new room
    (the caller included), and the room list to every socket.  When the
    name reads an inherited value the session is moved all the same, the
    store is left as it was, and the callback ends by an exception after
    the "left" notification: no history, no "joined" notification and no
    room list are sent. *)
Theorem join_room_moves_the_session isOpen st ws meta name data ts room :
  consistent st → roomNamesNonEmpty st →
  Map_get ws (clients st) = Some meta →
  m_username meta = Some name → nonEmpty name = true →
  d_type data = JStr "join_room" →
  trim (toString (d_room data)) = room →
  nonEmpty room = true →
  let st' := (onMessage isOpen st ws data ts).1 in
  consistent st'
  ∧ Map_get ws (clients st') = Some (set_room (Some room) meta)
  ∧ (∀ r, member st' ws r ↔ r = room)
  ∧ (∀ w r, w ≠ ws → member st' w r ↔ member st w r)
  ∧ (readsPrototype room (file st) = false →
       (onMessage_outcome isOpen st ws data ts).2 = Returns
       ∧ (onMessage isOpen st ws data ts).2 =
           match m_room meta with
           | Some r0 =>
               sendEach isOpen
                 (Set_delete ws (default [] (Map_get r0 (rooms st))))
                 (notification (name +:+ " left " +:+ r0))
           | None => []
           end
           ++ safeSend isOpen ws
                (history (JStr room) (sliceLast 200 (roomLog room (file st))))
           ++ sendEach isOpen (default [] (Map_get room (rooms st')))
                (notification (name +:+ " joined " +:+ room))
           ++ sendEach isOpen (Map_keys (clients st'))
                (room_list (get_rooms st')))
  ∧ (readsPrototype room (file st) = true →
       (onMessage_outcome isOpen st ws data ts).2 = Throws
       ∧ file st' = file st
       ∧ (onMessage isOpen st ws data ts).2 =
           match m_room meta with
           | Some r0 =>
               sendEach isOpen
                 (Set_delete ws (default [] (Map_get r0 (rooms st))))
                 (notification (name +:+ " left " +:+ r0))
           | None => []
           end).
Proof.
  intros Hcons Hnames Hget Hname Hne Hty Hroom Hr st'.
  assert (Hcons' : consistent st').
  { apply onMessage_consistent; [done|done|].
    intros Hlogin. apply strictEqStr_true in Hlogin. congruence. }
  assert (Hst : st' = mkServer
            (Map_set ws (set_room (Some room) meta) (clients st))
            (roomAdd room ws
               (ensureRoom room (rooms (leaveCurrent isOpen st ws meta name).1)))
            (nextUserId st) (ensureRoomLog room (file st))).
  { subst st'.
    rewrite (onMessage_join_room isOpen st ws meta name data ts
               Hget Hname Hne Hty).
    rewrite on_join_room_state, Hroom. by rewrite Hr. }
  assert (Hws : Map_get ws (clients st') = Some (set_room (Some room) meta)).
  { rewrite Hst. cbn [clients]. apply Map_get_set_eq. }
  split_and!; [done|done|..].
  - intros r. rewrite <- (Hcons' ws _ Hws r). cbn [m_room set_room].
    split; congruence.
  - intros w r Hw. unfold member. rewrite Hst. cbn [rooms].
    rewrite inRoom_roomAdd, inRoom_ensureRoom by apply ensureRoom_has.
    rewrite (leaveCurrent_inRoom isOpen st ws meta name w r Hcons Hnames Hget).
    split; [|by right]. by intros [[_ ->]|[_ ?]].
  - intros Hreads.
    pose proof (leaveCurrent_out isOpen st ws meta name Hcons Hnames Hget)
      as Hleft.
    rewrite Hst. unfold onMessage.
    rewrite (onMessage_join_room_outcome isOpen st ws meta name data ts
               Hget Hname Hne Hty).
    rewrite (on_join_room_resolved isOpen st ws meta name data room
               Hroom Hr Hreads).
    cbn [fst snd]. split; [done|].
    rewrite Hleft, broadcastToRoom_str.
    unfold broadcastToAll, get_rooms. by cbn [file rooms clients].
  - intros Hreads.
    pose proof (leaveCurrent_out isOpen st ws meta name Hcons Hnames Hget)
      as Hleft.
    rewrite Hst. unfold onMessage.
    rewrite (onMessage_join_room_outcome isOpen st ws meta name data ts
               Hget Hname Hne Hty).
    rewrite (on_join_room_throws isOpen st ws meta name data room
               Hroom Hr Hreads).
    cbn [fst snd file]. split_and!; [done| |done].
    by apply ensureRoomLog_readsPrototype.
Qed.

Lemma roomNamesNonEmpty_run_alice_bob : roomNamesNonEmpty run_alice_bob.
Proof. apply reachable_roomNamesNonEmpty, reachable_run_alice_bob. Qed.

Lemma consistent_run_alice_bob : consistent run_alice_bob.
Proof.
  unfold run_alice_bob. apply onMessage_consistent.
  - apply onConnection_consistent; [|reflexivity].
    unfold run_alice. apply onMessage_consistent.
    + apply onConnection_consistent; [|reflexivity].
      intros w m Hw. discriminate Hw.
    + intros w m r Hw. cbn in Hw. case_decide; [|done].
      injection Hw as <-. done.
    + intros _ m Hm. injection Hm as <-. by left.
  - eapply step_roomNamesNonEmpty;
      [by apply (step_connect allOpen run_alice 2)|].
    apply reachable_roomNamesNonEmpty, reachable_run_alice.
  - intros _ m Hm. injection Hm as <-. by left.
Qed.

(** alice moves from the lobby to general: bob is told, alice is not.
    When she moves to a room called toString instead, bob is told and
    nothing else is sent. *)
Lemma join_room_moves_the_session_witness :
  (onMessage allOpen run_alice_bob 1
     (room_frame "join_room" (JStr "general")) 5).2
  = [(2, notification "alice left lobby");
     (1, history (JStr "general") []);
     (1, notification "alice joined general");
     (1, room_list ["lobby"; "general"]);
     (2, room_list ["lobby"; "general"])]
  ∧ (onMessage_outcome allOpen run_alice_bob 1
       (room_frame "join_room" (JStr "toString")) 5).2 = Throws
  ∧ (onMessage allOpen run_alice_bob 1
       (room_frame "join_room" (JStr "toString")) 5).2
    = [(2, notification "alice left lobby")]
  ∧ member (onMessage allOpen run_alice_bob 1
              (room_frame "join_room" (JStr "toString")) 5).1 1 "toString".
Proof.
  assert (H1 : Map_get 1 (clients run_alice_bob)
               = Some (mkMeta 1 (Some "alice") (Some "lobby") false))
    by (vm_compute; reflexivity).
  pose proof roomNamesNonEmpty_run_alice_bob as Hnames.
  pose proof consistent_run_alice_bob as Hcons.
  destruct (join_room_moves_the_session allOpen run_alice_bob 1
              (mkMeta 1 (Some "alice") (Some "lobby") false) "alice"
              (room_frame "join_room" (JStr "general")) 5 "general"
              Hcons Hnames H1 eq_refl eq_refl eq_refl eq_refl eq_refl)
    as (_ & _ & _ & _ & Hplain & _).
  destruct (join_room_moves_the_session allOpen run_alice_bob 1
              (mkMeta 1 (Some "alice") (Some "lobby") false) "alice"
              (room_frame "join_room" (JStr "toString")) 5 "toString"
              Hcons Hnames H1 eq_refl eq_refl eq_refl eq_refl eq_refl)
    as (_ & _ & Hmember & _ & _ & Hproto).
  destruct (Hplain eq_refl) as [_ Hout].
  destruct (Hproto eq_refl) as (Hthrows & _ & Hout').
  split_and!; [|exact Hthrows| |by apply Hmember].
  - rewrite Hout. vm_compute. reflexivity.
  - rewrite Hout'. vm_compute. reflexivity.
Defined.

(** X12. From a state where the [room] fields and the room Sets agree,
    [leave_room] takes the session out of its room: afterwards its [room]
    is null and its socket is in no room Set, the other sockets'
    memberships and the room list are unchanged, and the agreement still
    holds.  The remaining members of the room are told (the caller is not),
    and every socket gets the presence list, in which the caller now has
    no room. *)
Theorem leave_room_clears_the_session isOpen st ws meta name data ts :
  consistent st → roomNamesNonEmpty st →
  Map_get ws (clients st) = Some meta →
  m_username meta = Some name → nonEmpty name = true →
  d_type data = JStr "leave_room" →
  let st' := (onMessage isOpen st ws data ts).1 in
  consistent st'
  ∧ Map_get ws (clients st') = Some (set_room None meta)
  ∧ (∀ r, ¬ member st' ws r)
  ∧ (∀ w r, w ≠ ws → member st' w r ↔ member st w r)
  ∧ get_rooms st' = get_rooms st
  ∧ file st' = file st
  ∧ mkUserEntry name None ∈ get_users st'
  ∧ (onMessage isOpen st ws data ts).2 =
      match m_room meta with
      | Some r0 =>
          sendEach isOpen (Set_delete ws (default [] (Map_get r0 (rooms st))))
            (notification (name +:+ " left " +:+ r0))
      | None => []
      end
      ++ sendEach isOpen (Map_keys (clients st')) (presence (get_users st')).
Proof.
  intros Hcons Hnames Hget Hname Hne Hty st'.
  assert (Hcons' : consistent st').
  { apply onMessage_consistent; [done|done|].
    intros Hlogin. apply strictEqStr_true in Hlogin. congruence. }
  assert (Hst : st' = mkServer
            (Map_set ws (set_room None meta) (clients st))
            (rooms (leaveCurrent isOpen st ws meta name).1)
            (nextUserId st) (file st)).
  { subst st'.
    rewrite (onMessage_leave_room isOpen st ws meta name data ts
               Hget Hname Hne Hty).
    apply on_leave_room_state. }
  assert (Hws : Map_get ws (clients st') = Some (set_room None meta)).
  { rewrite Hst. cbn [clients]. apply Map_get_set_eq. }
  split_and!; [done|done|..].
  - intros r Hin. by apply (Hcons' ws _ Hws r) in Hin.
  - intros w r Hw. unfold member. rewrite Hst. cbn [rooms].
    rewrite (leaveCurrent_inRoom isOpen st ws meta name w r Hcons Hnames Hget).
    split; [by intros [_ ?]|done].
  - rewrite Hst. unfold get_rooms. cbn [rooms]. rewrite leaveCurrent_rooms.
    destruct (m_room meta) as [r0|]; [|done].
    destruct (nonEmpty r0 && Map_has r0 (rooms st)); [|done].
    apply roomDelete_keys.
  - by rewrite Hst.
  - apply elem_of_usersList. exists ws, (set_room None meta).
    split_and!; try done. by apply Map_get_elem_of.
  - pose proof (leaveCurrent_out isOpen st ws meta name Hcons Hnames Hget)
      as Hleft.
    subst st'.
    rewrite (onMessage_leave_room isOpen st ws meta name data ts
               Hget Hname Hne Hty).
    unfold on_leave_room.
    destruct (leaveCurrent isOpen st ws meta name) as [st1 out1].
    cbn [fst snd] in *. by rewrite Hleft.
Qed.

Lemma leave_room_clears_the_session_witness :
  (onMessage allOpen run_alice_bob 1 (frame "leave_room") 5).2
  = [(2, notification "alice left lobby");
     (1, presence [mkUserEntry "alice" None;
                   mkUserEntry "bob" (Some "lobby")]);
     (2, presence [mkUserEntry "alice" None;
                   mkUserEntry "bob" (Some "lobby")])].
Proof.
  assert (H1 : Map_get 1 (clients run_alice_bob)
               = Some (mkMeta 1 (Some "alice") (Some "lobby") false))
    by (vm_compute; reflexivity).
  destruct (leave_room_clears_the_session allOpen run_alice_bob 1
              (mkMeta 1 (Some "alice") (Some "lobby") false) "alice"
              (frame "leave_room") 5
              consistent_run_alice_bob roomNamesNonEmpty_run_alice_bob
              H1 eq_refl eq_refl eq_refl)
    as (_ & _ & _ & _ & _ & _ & _ & Hout).
  rewrite Hout. vm_compute. reflexivity.
Defined.

(** ** Disconnecting *)

(** X13. The close callback removes the session: the socket is no longer a
    key of [clients], the other sessions, the store and the id counter are
    untouched, and no frame of the callback goes to the closing socket.
    When the [room] fields and the room Sets agreed before, the socket is
    left in no room Set (no dangling member), the agreement still holds, and
    the "disconnected" notification uses the display name, or [UserN] when
    the session never logged in. *)
Theorem close_removes_the_session isOpen st ws meta :
  Map_get ws (clients st) = Some meta →
  let st' := (onClose isOpen st ws).1 in
  let out := (onClose isOpen st ws).2 in
  Map_get ws (clients st') = None
  ∧ (∀ w, w ≠ ws → Map_get w (clients st') = Map_get w (clients st))
  ∧ file st' = file st
  ∧ nextUserId st' = nextUserId st
  ∧ get_rooms st' = get_rooms st
  ∧ (∀ o, (ws, o) ∉ out)
  ∧ (consistent st → roomNamesNonEmpty st →
       consistent st'
       ∧ (∀ r, ¬ inRoom (rooms st') ws r)
       ∧ out =
           sendEach isOpen (Map_keys (clients st')) (presence (get_users st'))
           ++ match m_room meta with
              | Some r0 =>
                  sendEach isOpen
                    (Set_delete ws (default [] (Map_get r0 (rooms st))))
                    (notification
                       ((if truthyOpt (m_username meta)
                         then default "" (m_username meta)
                         else "User" +:+ pretty (m_id meta))
                        +:+ " disconnected"))
              | None => []
              end).
Proof.
  intros Hget st' out.
  assert (Hc : clients st' = Map_delete ws (clients st))
    by apply onClose_clients.
  assert (Hrooms : rooms st' =
            match m_room meta with
            | Some r =>
                if nonEmpty r && Map_has r (rooms st)
                then roomDelete r ws (rooms st) else rooms st
            | None => rooms st
            end).
  { subst st'. unfold onClose. rewrite Hget. cbn [mbind option_bind fst rooms].
    destruct (m_room meta) as [r|]; [|done].
    by destruct (nonEmpty r && Map_has r (rooms st)). }
  split_and!.
  - rewrite Hc. apply Map_get_delete_eq.
  - intros w Hw. rewrite Hc. by apply Map_get_delete_ne.
  - apply onClose_file.
  - apply onClose_nextUserId.
  - unfold get_rooms. rewrite Hrooms.
    destruct (m_room meta) as [r|]; [|done].
    destruct (nonEmpty r && Map_has r (rooms st)); [|done].
    apply roomDelete_keys.
  - intros o Hin. subst out. unfold onClose in Hin. cbn [snd] in Hin.
    apply elem_of_app in Hin as [Hin|Hin].
    + apply elem_of_sendEach in Hin as [Hin _]. cbn [clients] in Hin.
      apply Map_keys_delete_elem in Hin as [Hne _]. done.
    + rewrite Hget in Hin. cbn [mbind option_bind] in Hin.
      destruct (m_room meta) as [r|]; [|by apply elem_of_nil in Hin].
      cbn [truthyOpt] in Hin.
      destruct (nonEmpty r) eqn:Hr; [|by apply elem_of_nil in Hin].
      cbn [ofRoom andb] in Hin. rewrite broadcastToRoom_str in Hin.
      cbn [rooms] in Hin.
      apply elem_of_sendEach in Hin as [Hin _].
      unfold Map_has in Hin.
      destruct (Map_get r (rooms st)) as [s|] eqn:Hs.
      * cbn [putRooms rooms] in Hin. unfold roomDelete in Hin.
        rewrite Hs, Map_get_set_eq in Hin. cbn in Hin.
        apply elem_of_Set_delete in Hin as [Hne _]. done.
      * rewrite Hs in Hin. by apply elem_of_nil in Hin.
  - intros Hcons Hnames.
    assert (Hcons' : consistent st') by (by apply onClose_consistent).
    split_and!; [done|..].
    + intros r Hin. rewrite Hrooms in Hin.
      pose proof (Hcons ws meta Hget) as Hws. unfold member in Hws.
      destruct (m_room meta) as [r0|] eqn:Hroom.
      * rewrite (Hnames ws meta r0 Hget Hroom) in Hin.
        destruct (proj1 (Hws r0) eq_refl) as (s & Hs & _).
        unfold Map_has in Hin. rewrite Hs in Hin. cbn [andb] in Hin.
        apply inRoom_roomDelete in Hin as [Hin Hnot].
        apply Hws in Hin. injection Hin as <-. by apply Hnot.
      * by apply Hws in Hin.
    + subst out st'. unfold onClose. rewrite Hget.
      cbn [mbind option_bind snd fst].
      pose proof (Hcons ws meta Hget) as Hws. unfold member in Hws.
      destruct (m_room meta) as [r0|] eqn:Hroom.
      * rewrite (Hnames ws meta r0 Hget Hroom).
        destruct (proj1 (Hws r0) eq_refl) as (s & Hs & _).
        unfold Map_has. rewrite Hs. cbn [andb truthyOpt].
        rewrite (Hnames ws meta r0 Hget Hroom). cbn [ofRoom].
        rewrite broadcastToRoom_str. cbn [rooms putRooms clients].
        unfold roomDelete. rewrite Hs, Map_get_set_eq. done.
      * reflexivity.
Qed.

(** alice disconnects: bob gets the presence list without her and the
    notification. *)
Lemma close_removes_the_session_witness :
  (onClose allOpen run_alice_bob 1).2
  = [(2, presence [mkUserEntry "bob" (Some "lobby")]);
     (2, notification "alice disconnected")]
  ∧ rooms (onClose allOpen run_alice_bob 1).1 = [("lobby", [2])].
Proof.
  assert (H1 : Map_get 1 (clients run_alice_bob)
               = Some (mkMeta 1 (Some "alice") (Some "lobby") false))
    by (vm_compute; reflexivity).
  destruct (close_removes_the_session allOpen run_alice_bob 1
              (mkMeta 1 (Some "alice") (Some "lobby") false) H1)
    as (_ & _ & _ & _ & _ & _ & Hagree).
  destruct (Hagree consistent_run_alice_bob roomNamesNonEmpty_run_alice_bob)
    as (_ & _ & Hout).
  split; [rewrite Hout|]; vm_compute; reflexivity.
Defined.

(** ** Direct messages: delivery and storage *)





(** ** A room message read back *)





(** ** Pair keys of different pairs *)

Lemma append_bar_inj a b c d :
  hasBar a = false → hasBar c = false →
  a +:+ "|" +:+ b = c +:+ "|" +:+ d → a = c ∧ b = d.
Proof.
  revert c. induction a as [|x a IH]; intros c Ha Hc Heq.
  - destruct c as [|y c]; simpl in Heq.
    + by injection Heq as Heq.
    + injection Heq as Hy _. subst y. cbn [hasBar] in Hc.
      rewrite bool_decide_eq_true_2 in Hc by done. done.
  - destruct c as [|y c]; simpl in Heq.
    + injection Heq as Hx _. subst x. cbn [hasBar] in Ha.
      rewrite bool_decide_eq_true_2 in Ha by done. done.
    + injection Heq as Hx Heq. subst y. cbn [hasBar] in Ha, Hc.
      apply orb_false_iff in Ha as [_ Ha]. apply orb_false_iff in Hc as [_ Hc].
      by destruct (IH c Ha Hc Heq) as [-> ->].
Qed.

Lemma sortPair_cases a b :
  sortPair a b = (a, b) ∨ sortPair a b = (b, a).
Proof. unfold sortPair. destruct (String.compare b a); auto. Qed.

(** X16. For names that do not contain the separator ["|"], the store key
    of a direct message identifies the pair: two pairs have the same key
    only if they are the same two names, in either order.  (Names are not
    checked for the separator; a name that contains it can share a key with
    another pair.) *)
Theorem dm_key_identifies_the_pair a b c d :
  hasBar a = false → hasBar b = false →
  hasBar c = false → hasBar d = false →
  dmKey a b = dmKey c d →
  (a = c ∧ b = d) ∨ (a = d ∧ b = c).
Proof.
  intros Ha Hb Hc Hd. unfold dmKey.
  destruct (sortPair_cases a b) as [-> | ->],
           (sortPair_cases c d) as [-> | ->]; cbn [fst snd]; intros Heq;
    apply append_bar_inj in Heq as [-> ->]; auto.
Qed.

Lemma dm_key_identifies_the_pair_witness :
  ("bob" = "alice" ∧ "alice" = "bob") ∨ ("bob" = "bob" ∧ "alice" = "alice").
Proof.
  apply (dm_key_identifies_the_pair "bob" "alice" "alice" "bob");
    reflexivity.
Defined.

(** A name with the separator: two different pairs, one key. *)
Lemma dm_key_collision : dmKey "a|b" "c" = dmKey "a" "b|c".
Proof. reflexivity. Qed.

(** ** The stand-alone broadcast server *)

Lemma Relay_namesGiven_elem isOpen peers c n u :
  u ∈ Relay.namesGiven isOpen peers c n →
  ∃ k, c ≤ k < c + n ∧ u = "User" +:+ pretty k.
Proof.
  revert c. induction n as [|n IH]; intros c Hin; cbn in Hin.
  - by apply elem_of_nil in Hin.
  - apply elem_of_cons in Hin as [->|Hin].
    + exists c. split; [lia|done].
    + destruct (IH (S c) Hin) as (k & Hk & ->). exists k. split; [lia|done].
Qed.

(** X17. The stand-alone broadcast server names its clients [User1],
    [User2], ... from a counter that grows by one per connection: the names
    given to any number of successive connections are pairwise different,
    and the [k]-th of them is [User(c+k)] when the counter started at [c]. *)
Theorem Relay_names_never_repeat isOpen peers c n :
  NoDup (Relay.namesGiven isOpen peers c n)
  ∧ ∀ k, k < n →
      Relay.namesGiven isOpen peers c n !! k = Some ("User" +:+ pretty (c + k)).
Proof.
  split.
  - revert c. induction n as [|n IH]; intros c; cbn; [apply NoDup_nil_2|].
    apply NoDup_cons. split; [|apply IH].
    intros Hin. apply Relay_namesGiven_elem in Hin as (k & Hk & Heq).
    cbn [String.append] in Heq. injection Heq as Heq.
    apply pretty_nat_inj in Heq. lia.
  - revert c. induction n as [|n IH]; intros c k Hk; [lia|].
    destruct k as [|k]; cbn.
    + by rewrite Nat.add_0_r.
    + rewrite IH by lia. do 3 f_equal. lia.
Qed.

Lemma Relay_names_never_repeat_witness :
  Relay.namesGiven allOpen [1; 2] 1 3 !! 2 = Some "User3".
Proof.
  destruct (Relay_names_never_repeat allOpen [1; 2] 1 3) as [_ Hk].
  rewrite (Hk 2) by lia. vm_compute. reflexivity.
Defined.

(** ** The agreement along runs without a second login from another room *)

Lemma quietStep_step st st' : quietStep st st' → step st st'.
Proof.
  intros [isOpen st0 ws Hfresh|isOpen st0 ws data ts _|isOpen st0 ws].
  - by apply step_connect.
  - apply (step_message isOpen st0 ws (parsed data) ts).
  - apply step_close.
Qed.

(** X18. The [room] fields and the room Sets agree in every state reached
    by connections, disconnections and frames of any kind, as long as no
    [login] frame comes from a session that sits in a room other than the
    lobby: for every session, [room] is [r] exactly when its socket is in
    the Set of [r]. *)
Theorem agreement_holds_without_relogin db0 st :
  rtc quietStep (boot db0) st →
  consistent st ∧ roomNamesNonEmpty st.
Proof.
  revert st.
  apply (rtc_ind_r (λ s, consistent s ∧ roomNamesNonEmpty s)).
  - split; [by intros ws meta Hget|by intros ws meta r Hget].
  - intros st1 st2 _ Hstep [Hcons Hnames]. split.
    + destruct Hstep as [isOpen st1 ws Hfresh|isOpen st1 ws data ts Hquiet
                        |isOpen st1 ws].
      * by apply onConnection_consistent.
      * apply onMessage_consistent; [done|done|].
        intros Hlogin. apply strictEqStr_true in Hlogin. by apply Hquiet.
      * by apply onClose_consistent.
    + eapply step_roomNamesNonEmpty; [by apply quietStep_step|done].
Qed.

Lemma agreement_holds_without_relogin_witness :
  consistent run_alice_general.
Proof.
  assert (Hrun : rtc quietStep (boot emptyDB) run_alice_general).
  { eapply rtc_l; [by apply (quiet_connect allOpen (boot emptyDB) 1)|].
    eapply rtc_l.
    { apply (quiet_message allOpen _ 1 (login_frame (JStr "alice")) 0).
      intros _ meta Hm. injection Hm as <-. by left. }
    apply rtc_once.
    apply (quiet_message allOpen _ 1
             (room_frame "join_room" (JStr "general")) 1).
    intros Hty. discriminate Hty. }
  exact (proj1 (agreement_holds_without_relogin emptyDB run_alice_general Hrun)).
Defined.

(** ** A message to the sender's own room *)


